(** * mtail: the server glue of [internal/mtail/mtail.go]

    A shallow embedding of the [Server] type and of its methods
    ([StartTailing], [initLoader], [New], [WriteMetrics], [Serve],
    [handleQuit], [WaitForShutdown], [Close], [Run]) together with the
    properties of their control flow: the order of the shutdown steps, the
    once-guard of [Close], the modes of [Run] and the error paths.

    Go functions become computations in a small monad [Go] that threads the
    server, the state of the collaborating packages (tailer, loader,
    exporter, metrics store, net/http) and emits the calls made to them as
    a chronological list of events.  A computation ends by returning, by
    blocking for ever on a channel, by a run-time panic or by leaving the
    process ([glog.Exitf]). *)

From Stdlib Require Import String Ascii List ZArith Bool Lia PeanoNat.
Import ListNotations.

Local Open Scope Z_scope.
Local Open Scope string_scope.
Local Open Scope list_scope.

Set Implicit Arguments.

(** ** Go base types *)

(** A Go [error] value is represented by its message; [None] is [nil]. *)
Definition error := string.

(** [time.Duration]: a number of nanoseconds. *)
Definition Duration := Z.
Definition Nanosecond : Duration := 1.
Definition Microsecond : Duration := 1000 * Nanosecond.
Definition Millisecond : Duration := 1000 * Microsecond.
Definition Second : Duration := 1000 * Millisecond.

(** The line feed written [\n] in the Go source. *)
Definition nl : string := String (ascii_of_nat 10) EmptyString.

(** [fmt.Sprintf] restricted to the verb [%s], the only one whose rendering
    the server needs: each [%s] is replaced by the next argument; a [%s]
    without argument renders as [%!s(MISSING)]. *)
Fixpoint Sprintf (format : string) (args : list string) : string :=
  match format with
  | EmptyString => EmptyString
  | String c rest =>
      match rest with
      | String d rest' =>
          if (Ascii.eqb c "%" && Ascii.eqb d "s")%bool then
            match args with
            | a :: args' => String.append a (Sprintf rest' args')
            | [] => String.append "%!s(MISSING)" (Sprintf rest' [])
            end
          else String c (Sprintf rest args)
      | EmptyString => String c EmptyString
      end
  end.

(** [errors.Errorf] of github.com/pkg/errors: an error whose message is the
    formatted string. *)
Definition Errorf (format : string) (args : list string) : error :=
  Sprintf format args.

(** [errors.Wrap err msg]: the message becomes [msg: err]. *)
Definition Wrap (err : error) (msg : string) : error :=
  String.append msg (String.append ": " err).

(** A channel made with [make]: only whether it has been closed matters. *)
Inductive chan_state := ChOpen | ChClosed.

(** [sync.Once]: [done] is set once the guarded function has run.  The
    mutex that serialises concurrent callers is part of [Module OnceProtocol]
    below. *)
Record Once := { done : bool }.

(** ** Handles on the collaborating packages *)

(** Options of [vm.NewLoader], [tailer.New] and [exporter.New]. *)
Definition Location := string.

Inductive LoaderOption :=
| CompileOnly
| ErrorsAbort
| DumpAst
| DumpAstTypes
| DumpBytecode
| SyslogUseCurrentYear
| OmitMetricSource
| OverrideLocation (loc : Location).

Inductive TailerOption := OneShot.

Inductive ExporterOption := OmitProgLabel | EmitTimestamp.

(** The objects themselves live in the other packages; the server keeps
    pointers to them.  A handle records what the object was built with. *)
Record Loader := { loader_programPath : string; loader_opts : list LoaderOption }.
Record Tailer := { tailer_opts : list TailerOption }.
Record Exporter := { exporter_opts : list ExporterOption }.
Record HTTPServer := { Handler : option (list string) }.
Definition Registry := list string.
Inductive Store := MetricsStore.
Inductive Watcher := LogWatcher.
Definition Listener := string.

Record BuildInfo := { Branch : string; Version : string; Revision : string }.

(** ** The server *)

Module Server.

(** [type Server struct], field by field.  Pointers that the code compares
    with [nil] are options. *)
Record Server := mk {
  lines : chan_state;
  store : Store;
  w : Watcher;
  t : option Tailer;
  l : option Loader;
  e : option Exporter;
  reg : option Registry;
  h : option HTTPServer;
  listener : option Listener;
  webquit : chan_state;
  closeQuit : chan_state;
  closeOnce : Once;
  bindAddress : string;
  buildInfo : BuildInfo;
  programPath : string;
  logPathPatterns : list string;
  oneShot : bool;
  compileOnly : bool;
  dumpAst : bool;
  dumpAstTypes : bool;
  dumpBytecode : bool;
  overrideLocation : option Location;
  expiredMetricGcTickInterval : Duration;
  staleLogGcTickInterval : Duration;
  syslogUseCurrentYear : bool;
  omitMetricSource : bool;
  omitProgLabel : bool;
  emitMetricTimestamp : bool
}.

(** Assignments to the fields that the methods write. *)
Definition set_lines (v : chan_state) (m : Server) : Server :=
  {| lines := v; store := store m; w := w m; t := t m; l := l m; e := e m;
     reg := reg m; h := h m; listener := listener m; webquit := webquit m;
     closeQuit := closeQuit m; closeOnce := closeOnce m;
     bindAddress := bindAddress m; buildInfo := buildInfo m;
     programPath := programPath m; logPathPatterns := logPathPatterns m;
     oneShot := oneShot m; compileOnly := compileOnly m;
     dumpAst := dumpAst m; dumpAstTypes := dumpAstTypes m;
     dumpBytecode := dumpBytecode m; overrideLocation := overrideLocation m;
     expiredMetricGcTickInterval := expiredMetricGcTickInterval m;
     staleLogGcTickInterval := staleLogGcTickInterval m;
     syslogUseCurrentYear := syslogUseCurrentYear m;
     omitMetricSource := omitMetricSource m;
     omitProgLabel := omitProgLabel m;
     emitMetricTimestamp := emitMetricTimestamp m |}.

Definition set_t (v : option Tailer) (m : Server) : Server :=
  {| lines := lines m; store := store m; w := w m; t := v; l := l m;
     e := e m; reg := reg m; h := h m; listener := listener m;
     webquit := webquit m; closeQuit := closeQuit m;
     closeOnce := closeOnce m; bindAddress := bindAddress m;
     buildInfo := buildInfo m; programPath := programPath m;
     logPathPatterns := logPathPatterns m; oneShot := oneShot m;
     compileOnly := compileOnly m; dumpAst := dumpAst m;
     dumpAstTypes := dumpAstTypes m; dumpBytecode := dumpBytecode m;
     overrideLocation := overrideLocation m;
     expiredMetricGcTickInterval := expiredMetricGcTickInterval m;
     staleLogGcTickInterval := staleLogGcTickInterval m;
     syslogUseCurrentYear := syslogUseCurrentYear m;
     omitMetricSource := omitMetricSource m;
     omitProgLabel := omitProgLabel m;
     emitMetricTimestamp := emitMetricTimestamp m |}.

Definition set_l (v : option Loader) (m : Server) : Server :=
  {| lines := lines m; store := store m; w := w m; t := t m; l := v;
     e := e m; reg := reg m; h := h m; listener := listener m;
     webquit := webquit m; closeQuit := closeQuit m;
     closeOnce := closeOnce m; bindAddress := bindAddress m;
     buildInfo := buildInfo m; programPath := programPath m;
     logPathPatterns := logPathPatterns m; oneShot := oneShot m;
     compileOnly := compileOnly m; dumpAst := dumpAst m;
     dumpAstTypes := dumpAstTypes m; dumpBytecode := dumpBytecode m;
     overrideLocation := overrideLocation m;
     expiredMetricGcTickInterval := expiredMetricGcTickInterval m;
     staleLogGcTickInterval := staleLogGcTickInterval m;
     syslogUseCurrentYear := syslogUseCurrentYear m;
     omitMetricSource := omitMetricSource m;
     omitProgLabel := omitProgLabel m;
     emitMetricTimestamp := emitMetricTimestamp m |}.

Definition set_e (v : option Exporter) (m : Server) : Server :=
  {| lines := lines m; store := store m; w := w m; t := t m; l := l m;
     e := v; reg := reg m; h := h m; listener := listener m;
     webquit := webquit m; closeQuit := closeQuit m;
     closeOnce := closeOnce m; bindAddress := bindAddress m;
     buildInfo := buildInfo m; programPath := programPath m;
     logPathPatterns := logPathPatterns m; oneShot := oneShot m;
     compileOnly := compileOnly m; dumpAst := dumpAst m;
     dumpAstTypes := dumpAstTypes m; dumpBytecode := dumpBytecode m;
     overrideLocation := overrideLocation m;
     expiredMetricGcTickInterval := expiredMetricGcTickInterval m;
     staleLogGcTickInterval := staleLogGcTickInterval m;
     syslogUseCurrentYear := syslogUseCurrentYear m;
     omitMetricSource := omitMetricSource m;
     omitProgLabel := omitProgLabel m;
     emitMetricTimestamp := emitMetricTimestamp m |}.

Definition set_reg (v : option Registry) (m : Server) : Server :=
  {| lines := lines m; store := store m; w := w m; t := t m; l := l m;
     e := e m; reg := v; h := h m; listener := listener m;
     webquit := webquit m; closeQuit := closeQuit m;
     closeOnce := closeOnce m; bindAddress := bindAddress m;
     buildInfo := buildInfo m; programPath := programPath m;
     logPathPatterns := logPathPatterns m; oneShot := oneShot m;
     compileOnly := compileOnly m; dumpAst := dumpAst m;
     dumpAstTypes := dumpAstTypes m; dumpBytecode := dumpBytecode m;
     overrideLocation := overrideLocation m;
     expiredMetricGcTickInterval := expiredMetricGcTickInterval m;
     staleLogGcTickInterval := staleLogGcTickInterval m;
     syslogUseCurrentYear := syslogUseCurrentYear m;
     omitMetricSource := omitMetricSource m;
     omitProgLabel := omitProgLabel m;
     emitMetricTimestamp := emitMetricTimestamp m |}.

Definition set_h (v : option HTTPServer) (m : Server) : Server :=
  {| lines := lines m; store := store m; w := w m; t := t m; l := l m;
     e := e m; reg := reg m; h := v; listener := listener m;
     webquit := webquit m; closeQuit := closeQuit m;
     closeOnce := closeOnce m; bindAddress := bindAddress m;
     buildInfo := buildInfo m; programPath := programPath m;
     logPathPatterns := logPathPatterns m; oneShot := oneShot m;
     compileOnly := compileOnly m; dumpAst := dumpAst m;
     dumpAstTypes := dumpAstTypes m; dumpBytecode := dumpBytecode m;
     overrideLocation := overrideLocation m;
     expiredMetricGcTickInterval := expiredMetricGcTickInterval m;
     staleLogGcTickInterval := staleLogGcTickInterval m;
     syslogUseCurrentYear := syslogUseCurrentYear m;
     omitMetricSource := omitMetricSource m;
     omitProgLabel := omitProgLabel m;
     emitMetricTimestamp := emitMetricTimestamp m |}.

Definition set_webquit (v : chan_state) (m : Server) : Server :=
  {| lines := lines m; store := store m; w := w m; t := t m; l := l m;
     e := e m; reg := reg m; h := h m; listener := listener m; webquit := v;
     closeQuit := closeQuit m; closeOnce := closeOnce m;
     bindAddress := bindAddress m; buildInfo := buildInfo m;
     programPath := programPath m; logPathPatterns := logPathPatterns m;
     oneShot := oneShot m; compileOnly := compileOnly m;
     dumpAst := dumpAst m; dumpAstTypes := dumpAstTypes m;
     dumpBytecode := dumpBytecode m; overrideLocation := overrideLocation m;
     expiredMetricGcTickInterval := expiredMetricGcTickInterval m;
     staleLogGcTickInterval := staleLogGcTickInterval m;
     syslogUseCurrentYear := syslogUseCurrentYear m;
     omitMetricSource := omitMetricSource m;
     omitProgLabel := omitProgLabel m;
     emitMetricTimestamp := emitMetricTimestamp m |}.

Definition set_closeQuit (v : chan_state) (m : Server) : Server :=
  {| lines := lines m; store := store m; w := w m; t := t m; l := l m;
     e := e m; reg := reg m; h := h m; listener := listener m;
     webquit := webquit m; closeQuit := v; closeOnce := closeOnce m;
     bindAddress := bindAddress m; buildInfo := buildInfo m;
     programPath := programPath m; logPathPatterns := logPathPatterns m;
     oneShot := oneShot m; compileOnly := compileOnly m;
     dumpAst := dumpAst m; dumpAstTypes := dumpAstTypes m;
     dumpBytecode := dumpBytecode m; overrideLocation := overrideLocation m;
     expiredMetricGcTickInterval := expiredMetricGcTickInterval m;
     staleLogGcTickInterval := staleLogGcTickInterval m;
     syslogUseCurrentYear := syslogUseCurrentYear m;
     omitMetricSource := omitMetricSource m;
     omitProgLabel := omitProgLabel m;
     emitMetricTimestamp := emitMetricTimestamp m |}.

Definition set_closeOnce (v : Once) (m : Server) : Server :=
  {| lines := lines m; store := store m; w := w m; t := t m; l := l m;
     e := e m; reg := reg m; h := h m; listener := listener m;
     webquit := webquit m; closeQuit := closeQuit m; closeOnce := v;
     bindAddress := bindAddress m; buildInfo := buildInfo m;
     programPath := programPath m; logPathPatterns := logPathPatterns m;
     oneShot := oneShot m; compileOnly := compileOnly m;
     dumpAst := dumpAst m; dumpAstTypes := dumpAstTypes m;
     dumpBytecode := dumpBytecode m; overrideLocation := overrideLocation m;
     expiredMetricGcTickInterval := expiredMetricGcTickInterval m;
     staleLogGcTickInterval := staleLogGcTickInterval m;
     syslogUseCurrentYear := syslogUseCurrentYear m;
     omitMetricSource := omitMetricSource m;
     omitProgLabel := omitProgLabel m;
     emitMetricTimestamp := emitMetricTimestamp m |}.

Definition set_programPath (v : string) (m : Server) : Server :=
  {| lines := lines m; store := store m; w := w m; t := t m; l := l m;
     e := e m; reg := reg m; h := h m; listener := listener m;
     webquit := webquit m; closeQuit := closeQuit m;
     closeOnce := closeOnce m; bindAddress := bindAddress m;
     buildInfo := buildInfo m; programPath := v;
     logPathPatterns := logPathPatterns m; oneShot := oneShot m;
     compileOnly := compileOnly m; dumpAst := dumpAst m;
     dumpAstTypes := dumpAstTypes m; dumpBytecode := dumpBytecode m;
     overrideLocation := overrideLocation m;
     expiredMetricGcTickInterval := expiredMetricGcTickInterval m;
     staleLogGcTickInterval := staleLogGcTickInterval m;
     syslogUseCurrentYear := syslogUseCurrentYear m;
     omitMetricSource := omitMetricSource m;
     omitProgLabel := omitProgLabel m;
     emitMetricTimestamp := emitMetricTimestamp m |}.

End Server.

Abbreviation Server := Server.Server.

(** ** Events *)

Inductive Chan := ch_lines | ch_webquit | ch_closeQuit.

(** The cases of the [select] of [WaitForShutdown], in the order of the
    source: the signal channel, [webquit], [closeQuit]. *)
Inductive SelectCase := case_signal | case_webquit | case_closeQuit.

(** glog severities; [V n] is [glog.V(n)]. *)
Inductive Severity := INFO | V (level : Z) | WARNING | ERROR | FATAL.

(** A [context.Context] as far as it is used here: its time-out, if any. *)
Record Context := { ctx_timeout : option Duration }.
Definition context_Background : Context := {| ctx_timeout := None |}.
Definition context_WithTimeout (parent : Context) (d : Duration) : Context :=
  {| ctx_timeout := Some d |}.

(** What a method does to the outside, in the order in which it does it.
    A call into another package carries the value it returned.  Log calls
    keep the format and the arguments apart.  The events are those of the
    goroutine that calls the method: of a goroutine it starts, the list
    has the [go] statement ([GoHTTPServe], with the listener the goroutine
    is to serve on), not the steps the goroutine takes beside its
    caller. *)
Inductive Event :=
| Glog (sev : Severity) (format : string) (args : list string)
| ChanClose (c : Chan)
| RecvVMsDone
| TailerNew (opts : list TailerOption) (r : option error)
| TailPattern (pattern : string) (r : option error)
| TailerClose (r : option error)
| TailerStartGcLoop (d : Duration)
| NewLoader (path : string) (opts : list LoaderOption) (r : option error)
| LoadAllPrograms (r : option error)
| ExporterNew (opts : list ExporterOption) (r : option error)
| StartMetricPush
| StoreStartGcLoop (d : Duration)
| StoreRLock
| StoreRUnlock
| HTTPShutdown (ctx : Context) (r : option error)
| CtxCancel
| GoHTTPServe (l : option Listener)
| RecvErrc (r : option error)
| SignalNotify
| RecvSignal
| Printf (s : string)
| StdoutWrite (b : string) (r : option error).

(** How a Go function call ends. *)
Inductive Outcome (A : Type) :=
| Ret (a : A)
| Blocked
| Panic (msg : string)
| Exited (code : Z).

Arguments Blocked {A}.
Arguments Panic {A} msg.
Arguments Exited {A} code.

Definition nil_dereference : string :=
  "invalid memory address or nil pointer dereference".
Definition http_ErrServerClosed : error := "http: Server closed".

(** The packages the server calls, as transitions of the state [W] of
    everything outside mtail.go (files, the tailer, the loader and its
    virtual machines, the store, the HTTP listener).  A blocking
    receive answers [None] when nothing is ever sent.  [runtime_select] is
    the pseudo-random number by which the runtime picks, in a [select],
    one of the cases that can proceed. *)
Record External (W : Type) := {
  tailer_New : list TailerOption -> W -> W * option error;
  tailer_TailPattern : string -> W -> W * option error;
  tailer_Close : W -> W * option error;
  tailer_StartGcLoop : Duration -> W -> W;
  vm_NewLoader : string -> list LoaderOption -> W -> W * option error;
  loader_LoadAllPrograms : W -> W * option error;
  loader_VMsDone : W -> option W;
  exporter_New : list ExporterOption -> W -> W * option error;
  exporter_StartMetricPush : W -> W;
  store_StartGcLoop : Duration -> W -> W;
  json_MarshalIndent : W -> string + error;
  stdout_Write : string -> W -> W * option error;
  http_Shutdown : Context -> W -> W * option error;
  http_Serve : W -> W * error;
  os_signal : W -> option W;
  runtime_select : W -> nat
}.

Section GoMonad.

Variable W : Type.

(** ** The monad of Go computations *)

Record State := { srv : Server; world : W }.

Record Result (A : Type) := mkResult {
  outcome : Outcome A;
  final : State;
  events : list Event
}.

Definition Go (A : Type) := State -> Result A.

Definition ret {A} (a : A) : Go A := fun st => mkResult (Ret a) st [].

Definition bind {A B} (c : Go A) (k : A -> Go B) : Go B := fun st =>
  match c st with
  | mkResult (Ret a) st1 ev1 =>
      match k a st1 with
      | mkResult o st2 ev2 => mkResult o st2 (ev1 ++ ev2)
      end
  | mkResult Blocked st1 ev1 => mkResult Blocked st1 ev1
  | mkResult (Panic msg) st1 ev1 => mkResult (Panic msg) st1 ev1
  | mkResult (Exited code) st1 ev1 => mkResult (Exited code) st1 ev1
  end.

Definition emit (ev : Event) : Go unit := fun st => mkResult (Ret tt) st [ev].
Definition panic {A} (msg : string) : Go A := fun st => mkResult (Panic msg) st [].
Definition block {A} : Go A := fun st => mkResult Blocked st [].
Definition os_Exit {A} (code : Z) : Go A := fun st => mkResult (Exited code) st [].

Definition get_server : Go Server := fun st => mkResult (Ret (srv st)) st [].
Definition update_server (f : Server -> Server) : Go unit := fun st =>
  mkResult (Ret tt) {| srv := f (srv st); world := world st |} [].

(** [o.done.Store(1)] on the server's [closeOnce]. *)
Definition once_done (st : State) : bool := done (Server.closeOnce (srv st)).
Definition store_done (st : State) : State :=
  {| srv := Server.set_closeOnce {| done := true |} (srv st);
     world := world st |}.

(** A call that returns a value and is logged with it. *)
Definition call {A} (f : W -> W * A) (ev : A -> Event) : Go A := fun st =>
  let (w', a) := f (world st) in
  mkResult (Ret a) {| srv := srv st; world := w' |} [ev a].

(** A call without result. *)
Definition call_ (f : W -> W) (ev : Event) : Go unit := fun st =>
  mkResult (Ret tt) {| srv := srv st; world := f (world st) |} [ev].

(** A receive on a channel fed by another package. *)
Definition recv (f : W -> option W) (ev : Event) : Go unit := fun st =>
  match f (world st) with
  | Some w' => mkResult (Ret tt) {| srv := srv st; world := w' |} [ev]
  | None => mkResult Blocked st []
  end.

Fixpoint for_each {A} (xs : list A) (body : A -> Go unit) : Go unit :=
  match xs with
  | [] => ret tt
  | x :: xs' => bind (body x) (fun _ => for_each xs' body)
  end.

(** ** glog and channels *)

Definition glog (sev : Severity) (format : string) (args : list string) : Go unit :=
  emit (Glog sev format args).

(** [glog.Exitf]: log, then [os.Exit(1)]. *)
Definition glog_Exitf {A} (format : string) (args : list string) : Go A :=
  bind (emit (Glog FATAL format args)) (fun _ => os_Exit 1).

Definition chan_of (c : Chan) (m : Server) : chan_state :=
  match c with
  | ch_lines => Server.lines m
  | ch_webquit => Server.webquit m
  | ch_closeQuit => Server.closeQuit m
  end.

Definition set_chan (c : Chan) (v : chan_state) (m : Server) : Server :=
  match c with
  | ch_lines => Server.set_lines v m
  | ch_webquit => Server.set_webquit v m
  | ch_closeQuit => Server.set_closeQuit v m
  end.

(** The builtin [close]: closing a closed channel panics. *)
Definition close (c : Chan) : Go unit :=
  bind get_server (fun m =>
    match chan_of c m with
    | ChClosed => panic "close of closed channel"
    | ChOpen =>
        bind (update_server (set_chan c ChClosed)) (fun _ => emit (ChanClose c))
    end).

End GoMonad.

Arguments ret {W A} a.
Arguments panic {W A} msg.
Arguments block {W A}.
Arguments os_Exit {W A} code.
Arguments get_server {W}.
Arguments update_server {W} f.
Arguments emit {W} ev.
Arguments glog {W} sev format args.
Arguments glog_Exitf {W A} format args.
Arguments close {W} c.
Arguments mkResult {W A} outcome final events.
Arguments once_done {W} st.
Arguments store_done {W} st.

Declare Scope go_scope.
Delimit Scope go_scope with go.
Notation "x <- c ;; k" := (bind c (fun x => k))
  (at level 61, c at next level, right associativity) : go_scope.
Notation "c ;; k" := (bind c (fun _ => k))
  (at level 61, right associativity) : go_scope.
Local Open Scope go_scope.

(** ** The methods of [Server] *)

Section Methods.

Variable W : Type.
Variable X : External W.

(** Calls through the server's pointers.  A method called through a [nil]
    pointer panics when it reaches the object. *)
Definition t_TailPattern (pattern : string) : Go W (option error) :=
  m <- get_server ;;
  match Server.t m with
  | None => panic nil_dereference
  | Some _ => call (tailer_TailPattern X pattern) (TailPattern pattern)
  end.

Definition t_StartGcLoop (d : Duration) : Go W unit :=
  m <- get_server ;;
  match Server.t m with
  | None => panic nil_dereference
  | Some _ => call_ (tailer_StartGcLoop X d) (TailerStartGcLoop d)
  end.

Definition e_StartMetricPush : Go W unit :=
  m <- get_server ;;
  match Server.e m with
  | None => panic nil_dereference
  | Some _ => call_ (exporter_StartMetricPush X) StartMetricPush
  end.

(** [StartTailing] adds each log path pattern to the tailer. *)
Definition StartTailing : Go W (option error) :=
  m <- get_server ;;
  for_each (Server.logPathPatterns m) (fun pattern =>
    glog (V 1) "Tail pattern %q" [pattern] ;;
    err <- t_TailPattern pattern ;;
    match err with
    | Some e => glog WARNING "%v" [e]
    | None => ret tt
    end) ;;
  ret None.

(** [opts = append(opts, o)] under [if b]. *)
Definition append_if {A} (b : bool) (o : A) (opts : list A) : list A :=
  if b then opts ++ [o] else opts.

(** [initLoader] constructs a new program loader and performs the initial
    load of program files in the program directory. *)
Definition initLoader : Go W (option error) :=
  m <- get_server ;;
  let opts := [] in
  let opts :=
    if Server.compileOnly m
    then append_if (Server.oneShot m) ErrorsAbort (opts ++ [CompileOnly])
    else opts in
  let opts := append_if (Server.dumpAst m) DumpAst opts in
  let opts := append_if (Server.dumpAstTypes m) DumpAstTypes opts in
  let opts := append_if (Server.dumpBytecode m) DumpBytecode opts in
  let opts := append_if (Server.syslogUseCurrentYear m) SyslogUseCurrentYear opts in
  let opts := append_if (Server.omitMetricSource m) OmitMetricSource opts in
  let opts :=
    match Server.overrideLocation m with
    | Some loc => opts ++ [OverrideLocation loc]
    | None => opts
    end in
  err <- call (vm_NewLoader X (Server.programPath m) opts)
              (NewLoader (Server.programPath m) opts) ;;
  match err with
  | Some e => update_server (Server.set_l None) ;; ret (Some e)
  | None =>
      update_server (Server.set_l
        (Some {| loader_programPath := Server.programPath m;
                 loader_opts := opts |})) ;;
      if String.eqb (Server.programPath m) "" then ret None
      else
        errs <- call (loader_LoadAllPrograms X) LoadAllPrograms ;;
        match errs with
        | Some es =>
            ret (Some (Errorf (String.append "Compile encountered errors:"
                                 (String.append nl "%s")) [es]))
        | None => ret None
        end
  end.

(** [initExporter] sets up an Exporter for this Server.  The registry is
    the list of the collectors registered with it; on a new registry the
    registrations of [MustRegister] succeed. *)
Definition initExporter : Go W (option error) :=
  m <- get_server ;;
  let opts := [] in
  let opts := append_if (Server.omitProgLabel m) OmitProgLabel opts in
  let opts := append_if (Server.emitMetricTimestamp m) EmitTimestamp opts in
  err <- call (exporter_New X opts) (ExporterNew opts) ;;
  match err with
  | Some e => update_server (Server.set_e None) ;; ret (Some e)
  | None =>
      update_server (Server.set_e (Some {| exporter_opts := opts |})) ;;
      update_server (Server.set_reg
        (Some ["exporter"; "go"; "process"; "mtail_expvar"; "mtail_build_info"])) ;;
      ret None
  end.

(** [initTailer] sets up a Tailer for this Server. *)
Definition initTailer : Go W (option error) :=
  m <- get_server ;;
  let opts := [] in
  let opts := append_if (Server.oneShot m) OneShot opts in
  err <- call (tailer_New X opts) (TailerNew opts) ;;
  match err with
  | Some e => update_server (Server.set_t None) ;; ret (Some e)
  | None =>
      update_server (Server.set_t (Some {| tailer_opts := opts |})) ;;
      ret None
  end.

(** [SetOption] takes one or more option functions and applies them in
    order to the server. *)
Fixpoint SetOption (options : list (Go W (option error))) : Go W (option error) :=
  match options with
  | [] => ret None
  | option :: options' =>
      err <- option ;;
      match err with
      | Some e => ret (Some e)
      | None => SetOption options'
      end
  end.

(** The composite literal at the head of [New]. *)
Definition new_server (store : Store) (w : Watcher) : Server :=
  {| Server.lines := ChOpen;
     Server.store := store;
     Server.w := w;
     Server.t := None;
     Server.l := None;
     Server.e := None;
     Server.reg := None;
     Server.h := Some {| Handler := None |};
     Server.listener := None;
     Server.webquit := ChOpen;
     Server.closeQuit := ChOpen;
     Server.closeOnce := {| done := false |};
     Server.bindAddress := "";
     Server.buildInfo := {| Branch := ""; Version := ""; Revision := "" |};
     Server.programPath := "";
     Server.logPathPatterns := [];
     Server.oneShot := false;
     Server.compileOnly := false;
     Server.dumpAst := false;
     Server.dumpAstTypes := false;
     Server.dumpBytecode := false;
     Server.overrideLocation := None;
     Server.expiredMetricGcTickInterval := 0;
     Server.staleLogGcTickInterval := 0;
     Server.syslogUseCurrentYear := false;
     Server.omitMetricSource := false;
     Server.omitProgLabel := false;
     Server.emitMetricTimestamp := false |}.

(** [New] creates a server from the supplied options and returns a pointer
    to it together with an error; [w0] is the world it is called in. *)
Definition New (store : Store) (w : Watcher)
    (options : list (Go W (option error))) (w0 : W)
  : Result W (option Server * option error) :=
  (err <- SetOption options ;;
   match err with
   | Some e => ret (None, Some e)
   | None =>
   err <- initExporter ;;
   match err with
   | Some e => ret (None, Some e)
   | None =>
   err <- initLoader ;;
   match err with
   | Some e => ret (None, Some e)
   | None =>
   err <- initTailer ;;
   match err with
   | Some e => ret (None, Some e)
   | None => m <- get_server ;; ret (Some m, None)
   end end end end)
  {| srv := new_server store w; world := w0 |}.

(** An [io.Writer]: what [Write] does with the bytes. *)
Definition Writer := string -> Go W (option error).

Definition os_Stdout : Writer := fun b =>
  call (stdout_Write X b) (StdoutWrite b).

(** [json.MarshalIndent(m.store.Metrics, ...)] reads the store. *)
Definition json_Marshal_store : Go W (string + error) := fun st =>
  mkResult (Ret (json_MarshalIndent X (world st))) st [].

(** [WriteMetrics] dumps the current state of the metrics store in JSON
    format to the writer. *)
Definition WriteMetrics (w : Writer) : Go W (option error) :=
  emit StoreRLock ;;
  r <- json_Marshal_store ;;
  emit StoreRUnlock ;;
  match r with
  | inr err => ret (Some (Wrap err "failed to marshal metrics into json"))
  | inl b => w b
  end.

(** [m.closeOnce.Do(f)]: [f] runs unless it has run; [done] is set when [f]
    returns, also by a panic, and stays unset while [f] has not returned. *)
Definition closeOnce_Do (f : Go W unit) : Go W unit := fun st =>
  if once_done st then ret tt st
  else
    match f st with
    | mkResult (Ret _) st1 ev => mkResult (Ret tt) (store_done st1) ev
    | mkResult (Panic msg) st1 ev => mkResult (Panic msg) (store_done st1) ev
    | mkResult Blocked st1 ev => mkResult Blocked st1 ev
    | mkResult (Exited code) st1 ev => mkResult (Exited code) st1 ev
    end.

(** The function literal that [Close] hands to [closeOnce.Do]. *)
Definition shutdown : Go W unit :=
  glog INFO "Shutdown requested." [] ;;
  close ch_closeQuit ;;
  m <- get_server ;;
  match Server.t m with
  | Some _ =>
      err <- call (tailer_Close X) TailerClose ;;
      match err with
      | Some e => glog INFO "tailer close failed: %s" [e]
      | None => ret tt
      end
  | None =>
      glog (V 2) "No tailer, closing lines channel directly." [] ;;
      close ch_lines
  end ;;
  m <- get_server ;;
  match Server.l m with
  | Some _ => recv (loader_VMsDone X) RecvVMsDone
  | None => glog (V 2) "No loader, so not waiting for loader shutdown." []
  end ;;
  m <- get_server ;;
  match Server.h m with
  | Some _ =>
      let ctx := context_WithTimeout context_Background (5 * Second) in
      err <- call (http_Shutdown X ctx) (HTTPShutdown ctx) ;;
      match err with
      | Some e => glog ERROR "%v" [e]
      | None => ret tt
      end ;;
      emit CtxCancel
  | None => ret tt
  end ;;
  glog INFO "END OF LINE" [].

(** [Close] handles the graceful shutdown of this mtail instance, ensuring
    that it only occurs once. *)
Definition Close : Go W (option error) :=
  closeOnce_Do shutdown ;;
  ret None.

(** The cases of the [select] of [WaitForShutdown] that can proceed: a
    signal has been delivered; a channel is closed. *)
Definition ready_cases : Go W (list SelectCase) := fun st =>
  ret (match os_signal X (world st) with
       | Some _ => [case_signal]
       | None => []
       end
       ++ match Server.webquit (srv st) with
          | ChClosed => [case_webquit]
          | ChOpen => []
          end
       ++ match Server.closeQuit (srv st) with
          | ChClosed => [case_closeQuit]
          | ChOpen => []
          end) st.

(** [select]: the goroutine stays blocked while no case can proceed;
    among those that can, the runtime picks one. *)
Definition select_ready (ready : list SelectCase) : Go W SelectCase := fun st =>
  match ready with
  | [] => mkResult Blocked st []
  | c :: _ =>
      mkResult
        (Ret (nth (Nat.modulo (runtime_select X (world st)) (length ready))
                  ready c))
        st []
  end.

(** [WaitForShutdown] handles shutdown requests from the system or the
    UI. *)
Definition WaitForShutdown : Go W unit :=
  emit SignalNotify ;;
  ready <- ready_cases ;;
  c <- select_ready ready ;;
  match c with
  | case_signal =>
      recv (os_signal X) RecvSignal ;;
      glog INFO "Received SIGTERM, exiting..." []
  | case_webquit => glog INFO "Received Quit from HTTP, exiting..." []
  | case_closeQuit => glog INFO "Received quit internally, exiting..." []
  end ;;
  err <- Close ;;
  match err with
  | Some e => glog WARNING "%v" [e]
  | None => ret tt
  end.

(** [http.ResponseWriter] and [*http.Request], as [handleQuit] uses them. *)
Record ResponseWriter := {
  rw_header : list (string * string);
  rw_status : option Z;
  rw_body : string
}.

Record Request := { Method : string }.

Definition StatusOK : Z := 200.
Definition StatusMethodNotAllowed : Z := 405.

Definition Header_Add (key value : string) (w : ResponseWriter) : ResponseWriter :=
  {| rw_header := rw_header w ++ [(key, value)];
     rw_status := rw_status w;
     rw_body := rw_body w |}.

Definition WriteHeader (code : Z) (w : ResponseWriter) : ResponseWriter :=
  match rw_status w with
  | Some _ => w
  | None =>
      {| rw_header := rw_header w; rw_status := Some code; rw_body := rw_body w |}
  end.

(** [Write] sends the status 200 first when no header has been written. *)
Definition rw_Write (b : string) (w : ResponseWriter) : ResponseWriter :=
  let w' := WriteHeader StatusOK w in
  {| rw_header := rw_header w';
     rw_status := rw_status w';
     rw_body := String.append (rw_body w') b |}.

Definition handleQuit (w : ResponseWriter) (r : Request) : Go W ResponseWriter :=
  if negb (String.eqb (Method r) "POST") then
    let w := Header_Add "Allow" "POST" w in
    let w := WriteHeader StatusMethodNotAllowed w in
    ret w
  else
    let w := rw_Write (Sprintf "Exiting..." []) w in
    close ch_webquit ;;
    ret w.

(** The patterns registered with the [ServeMux] of [Serve]. *)
Definition mux_patterns : list string :=
  ["/favicon.ico"; "/"; "/json"; "/metrics"; "/varz"; "/quitquitquit";
   "/debug/vars"; "/debug/pprof/"; "/debug/pprof/cmdline";
   "/debug/pprof/profile"; "/debug/pprof/symbol"; "/debug/pprof/trace"].

(** [Serve] begins the webserver and awaits a shutdown instruction.  The
    [go] statement starts a goroutine that logs [Listening on] with the
    address of the listener, serves on the listener, and sends on [errc]
    what [m.h.Serve] returned, with [http.ErrServerClosed] turned into
    [nil].  The goroutine runs beside [Serve]: its steps are no events of
    [Serve], which has the [go] statement, [WaitForShutdown], and the
    receive from [errc] with the value it yields.  A goroutine that is
    given a [nil] listener panics when it asks for the address, which ends
    the process. *)
Definition Serve : Go W (option error) :=
  m <- get_server ;;
  if String.eqb (Server.bindAddress m) "" then
    ret (Some (Errorf "No bind address provided." []))
  else
    match Server.h m with
    | None => panic nil_dereference
    | Some _ => update_server (Server.set_h (Some {| Handler := Some mux_patterns |}))
    end ;;
    e_StartMetricPush ;;
    emit (GoHTTPServe (Server.listener m)) ;;
    match Server.listener m with
    | None => panic nil_dereference
    | Some _ => ret tt
    end ;;
    WaitForShutdown ;;
    call (fun w =>
            let (w', err) := http_Serve X w in
            (w', if String.eqb err http_ErrServerClosed then None else Some err))
         RecvErrc.

(** [Run] starts the server's primary function, in which it watches the log
    files for changes and sends any new lines found into the lines channel
    for pick up by the virtual machines.  If OneShot mode is enabled, it
    will exit. *)
Definition Run : Go W (option error) :=
  m <- get_server ;;
  if Server.compileOnly m then
    glog INFO "compile-only is set, exiting" [] ;;
    ret None
  else
    err <- StartTailing ;;
    match err with
    | Some e => glog_Exitf "tailing failed: %s" [e]
    | None => ret tt
    end ;;
    m <- get_server ;;
    if Server.oneShot m then
      err <- Close ;;
      match err with
      | Some e => ret (Some e)
      | None =>
          emit (Printf "Metrics store:") ;;
          err <- WriteMetrics os_Stdout ;;
          match err with
          | Some e => ret (Some e)
          | None => ret None
          end
      end
    else
      call_ (store_StartGcLoop X (Server.expiredMetricGcTickInterval m))
            (StoreStartGcLoop (Server.expiredMetricGcTickInterval m)) ;;
      t_StartGcLoop (Server.staleLogGcTickInterval m) ;;
      err <- Serve ;;
      match err with
      | Some e => ret (Some e)
      | None => ret None
      end.

End Methods.

(** ** Concurrent callers of [Close]

    [sync.Once.Do] loads [done] and returns when it is set; otherwise it
    takes the mutex of the [Once], loads [done] again, runs the function
    when it is still unset, stores [done] and releases the mutex.  Any
    number of goroutines call [Close]; a schedule interleaves their steps.
    The function runs under the mutex, so no other caller of [Close] acts
    on the server while it runs: it is one step of the holder. *)

Section OnceProtocol.

Variable W : Type.
Variable X : External W.

(** Where a goroutine stands in its call of [Close]. *)
Inductive pc :=
| Calling
| WaitingLock
| Locked
| Finishing
| Stuck
| Crashed
| Returned.

Record Config := {
  shared : State W;
  mutex : option nat;
  pcs : nat -> pc;
  history : list Event
}.

Definition at_pc (i : nat) (p : pc) (f : nat -> pc) : nat -> pc :=
  fun j => if Nat.eqb j i then p else f j.

(** Before any goroutine has called [Close]. *)
Definition start (st : State W) : Config :=
  {| shared := st; mutex := None; pcs := fun _ => Calling; history := [] |}.

Inductive step : Config -> Config -> Prop :=
| step_fast (i : nat) (c : Config) :
    pcs c i = Calling -> once_done (shared c) = true ->
    step c {| shared := shared c; mutex := mutex c;
              pcs := at_pc i Returned (pcs c); history := history c |}
| step_slow (i : nat) (c : Config) :
    pcs c i = Calling -> once_done (shared c) = false ->
    step c {| shared := shared c; mutex := mutex c;
              pcs := at_pc i WaitingLock (pcs c); history := history c |}
| step_lock (i : nat) (c : Config) :
    pcs c i = WaitingLock -> mutex c = None ->
    step c {| shared := shared c; mutex := Some i;
              pcs := at_pc i Locked (pcs c); history := history c |}
| step_skip (i : nat) (c : Config) :
    pcs c i = Locked -> once_done (shared c) = true ->
    step c {| shared := shared c; mutex := mutex c;
              pcs := at_pc i Finishing (pcs c); history := history c |}
| step_run (i : nat) (c : Config) :
    pcs c i = Locked -> once_done (shared c) = false ->
    outcome (shutdown X (shared c)) = Ret tt ->
    step c {| shared := store_done (final (shutdown X (shared c)));
              mutex := mutex c;
              pcs := at_pc i Finishing (pcs c);
              history := history c ++ events (shutdown X (shared c)) |}
| step_run_blocked (i : nat) (c : Config) :
    pcs c i = Locked -> once_done (shared c) = false ->
    outcome (shutdown X (shared c)) = Blocked ->
    step c {| shared := final (shutdown X (shared c));
              mutex := mutex c;
              pcs := at_pc i Stuck (pcs c);
              history := history c ++ events (shutdown X (shared c)) |}
| step_run_panic (i : nat) (c : Config) (msg : string) :
    pcs c i = Locked -> once_done (shared c) = false ->
    outcome (shutdown X (shared c)) = Panic msg ->
    step c {| shared := store_done (final (shutdown X (shared c)));
              mutex := None;
              pcs := at_pc i Crashed (pcs c);
              history := history c ++ events (shutdown X (shared c)) |}
| step_unlock (i : nat) (c : Config) :
    pcs c i = Finishing ->
    step c {| shared := shared c; mutex := None;
              pcs := at_pc i Returned (pcs c); history := history c |}.

(** A goroutine at these points holds the mutex; at those, it has not yet
    seen [done] set nor run the function. *)
Definition holds (p : pc) : bool :=
  match p with Locked | Finishing | Stuck => true | _ => false end.

Definition early (p : pc) : bool :=
  match p with Calling | WaitingLock | Locked => true | _ => false end.

(** The configurations some schedule leads to. *)
Inductive reachable (st : State W) : Config -> Prop :=
| reach_start : reachable st (start st)
| reach_step (c c' : Config) : reachable st c -> step c c' -> reachable st c'.

(** What every schedule preserves, from a start in [st]: the mutex belongs
    to the goroutine that is between [Lock] and [Unlock]; and either nothing
    has happened to the server, or it is as one sequential [Close] leaves
    it, which is final because [done] is set or because the goroutine that
    ran the function is blocked in it with the mutex. *)
Definition lock_owned (c : Config) : Prop :=
  forall i, holds (pcs c i) = true -> mutex c = Some i.

Definition not_yet (st : State W) (c : Config) : Prop :=
  shared c = st /\ history c = [] /\
  (once_done st = false -> forall i, early (pcs c i) = true).

Definition ran_once (st : State W) (c : Config) : Prop :=
  once_done st = false /\
  history c = events (Close X st) /\
  shared c = final (Close X st) /\
  (once_done (shared c) = true \/ exists j, pcs c j = Stuck).

Definition once_invariant (st : State W) (c : Config) : Prop :=
  lock_owned c /\ (not_yet st c \/ ran_once st c).

End OnceProtocol.

(** [n + 1] calls of a method, one after the other, by one goroutine; the
    value is that of the last call. *)
Fixpoint times {W A} (n : nat) (c : Go W A) : Go W A :=
  match n with
  | O => c
  | S n' => c ;; times n' c
  end.

(** ** Reading event lists *)

Definition is_log (ev : Event) : bool :=
  match ev with Glog _ _ _ => true | _ => false end.

(** The events of a run that are not log lines. *)
Definition steps (tr : list Event) : list Event :=
  filter (fun ev => negb (is_log ev)) tr.

(** How often [closeQuit] was closed. *)
Definition closeQuit_closings (tr : list Event) : nat :=
  length (filter (fun ev => match ev with
                            | ChanClose ch_closeQuit => true
                            | _ => false
                            end) tr).

(** The patterns handed to [TailPattern], in order. *)
Definition tail_patterns (tr : list Event) : list string :=
  flat_map (fun ev => match ev with TailPattern p _ => [p] | _ => [] end) tr.

(** Events that write to the standard output. *)
Definition is_stdout (ev : Event) : bool :=
  match ev with Printf _ | StdoutWrite _ _ => true | _ => false end.

(** Events that start the HTTP server or a garbage collection loop. *)
Definition is_serving (ev : Event) : bool :=
  match ev with
  | GoHTTPServe _ | StartMetricPush | RecvErrc _ | SignalNotify | RecvSignal
  | StoreStartGcLoop _ | TailerStartGcLoop _ => true
  | _ => false
  end.

Definition returned {W A} (r : Result W A) : bool :=
  match outcome r with Ret _ => true | _ => false end.

(** A computation that never leaves the process, and one all of whose
    events satisfy [P]. *)
Definition no_exit {W A} (c : Go W A) : Prop :=
  forall st code, outcome (c st) <> Exited code.

Definition emits {W A} (P : Event -> bool) (c : Go W A) : Prop :=
  forall st ev, In ev (events (c st)) -> P ev = true.

(** Neither output nor serving. *)
Definition is_silent (ev : Event) : bool :=
  negb (is_stdout ev) && negb (is_serving ev).

(** The context [Close] gives to [http.Server.Shutdown]. *)
Definition shutdown_ctx : Context := {| ctx_timeout := Some (5 * Second) |}.

(** The step of [Close] that closes the line ingestion. *)
Definition ingestion_step (m : Server) (r : option error) : Event :=
  match Server.t m with
  | Some _ => TailerClose r
  | None => ChanClose ch_lines
  end.

(** The channels [Close] closes are open as long as it has not run: nothing
    else in the file closes [closeQuit], and [lines] belongs to the server
    when there is no tailer. *)
Definition well_formed (m : Server) : Prop :=
  done (Server.closeOnce m) = false ->
  Server.closeQuit m = ChOpen /\
  (Server.t m = None -> Server.lines m = ChOpen).

(** The world in which [Close] waits for the loader: after the tailer's
    [Close] when there is a tailer. *)
Definition world_at_wait {W} (X : External W) (st : State W) : W :=
  match Server.t (srv st) with
  | Some _ => fst (tailer_Close X (world st))
  | None => world st
  end.

(** The wait of [Close] for [VMsDone] ends: there is none, or the loader
    signals. *)
Definition wait_ends {W} (X : External W) (st : State W) : Prop :=
  once_done st = true \/ Server.l (srv st) = None \/
  loader_VMsDone X (world_at_wait X st) <> None.

(** The order of shutdown steps with an unconditional wait for the loader:
    [closeQuit], the line ingestion, [VMsDone], the HTTP server. *)
Definition waits_before_http (m : Server) (tr : list Event) : Prop :=
  exists a b c d e r ctx r',
    tr = a ++ ChanClose ch_closeQuit :: b ++ ingestion_step m r :: c
           ++ RecvVMsDone :: d ++ HTTPShutdown ctx r' :: e.

(** The dump options reach the loader only in compile-only mode. *)
Definition dumps_only_when_compiling {W} (X : External W) (st : State W) : Prop :=
  forall path opts r,
    In (NewLoader path opts r) (events (initLoader X st)) ->
    In DumpAst opts \/ In DumpAstTypes opts \/ In DumpBytecode opts ->
    Server.compileOnly (srv st) = true.

(** The standard output gets the metrics only after the wait for
    [VMsDone]. *)
Definition writes_after_VMsDone (tr : list Event) : Prop :=
  forall before b r after,
    tr = before ++ StdoutWrite b r :: after -> In RecvVMsDone before.

(** [Close] returns [nil] on this state. *)
Definition returns_nil {W} (X : External W) (st : State W) : Prop :=
  outcome (Close X st) = Ret None.

(** With an empty program path [initLoader] succeeds. *)
Definition empty_path_succeeds {W} (X : External W) (st : State W) : Prop :=
  Server.programPath (srv st) = "" -> outcome (initLoader X st) = Ret None.

(** What [New] does before it calls [initLoader]. *)
Definition before_initLoader {W} (X : External W)
    (options : list (Go W (option error))) : Go W (option error) :=
  err <- SetOption options ;;
  match err with
  | Some e => ret (Some e)
  | None => initExporter X
  end.

(** Modelled from the spec: the option function for the configuration knob
    [programPath] (directory of DSL source files); the option functions
    that callers hand to [New] are not among the sources.  It sets the
    field and returns [nil]. *)
Definition ProgramPath {W} (path : string) : Go W (option error) :=
  update_server (Server.set_programPath path) ;;
  ret None.

(** ** Worlds and servers for examples *)

(** A world without state whose calls answer as a script says. *)
Record Script := {
  tail_answer : string -> option error;
  close_answer : option error;
  new_loader_answer : option error;
  load_answer : option error;
  vms_done : bool;
  drain_time : Duration;
  marshal_answer : string + error
}.

(** [Shutdown] gives up when the connections need longer to drain than the
    context allows. *)
Definition scripted (s : Script) : External unit :=
  {| tailer_New := fun _ w => (w, None);
     tailer_TailPattern := fun p w => (w, tail_answer s p);
     tailer_Close := fun w => (w, close_answer s);
     tailer_StartGcLoop := fun _ w => w;
     vm_NewLoader := fun _ _ w => (w, new_loader_answer s);
     loader_LoadAllPrograms := fun w => (w, load_answer s);
     loader_VMsDone := fun w => if vms_done s then Some w else None;
     exporter_New := fun _ w => (w, None);
     exporter_StartMetricPush := fun w => w;
     store_StartGcLoop := fun _ w => w;
     json_MarshalIndent := fun _ => marshal_answer s;
     stdout_Write := fun _ w => (w, None);
     http_Shutdown := fun ctx w =>
       (w, match ctx_timeout ctx with
           | Some d => if (drain_time s <=? d)%Z then None
                       else Some "context deadline exceeded"
           | None => None
           end);
     http_Serve := fun w => (w, http_ErrServerClosed);
     os_signal := fun w => Some w;
     runtime_select := fun _ => 0%nat |}.

(** Every call succeeds. *)
Definition calm : Script :=
  {| tail_answer := fun _ => None;
     close_answer := None;
     new_loader_answer := None;
     load_answer := None;
     vms_done := true;
     drain_time := 0;
     marshal_answer := inl "[]" |}.

(** The tailer fails on [/var/log/missing] and in [Close]; the HTTP server
    needs six seconds to drain. *)
Definition stormy : Script :=
  {| tail_answer := fun p =>
       if String.eqb p "/var/log/missing" then Some "no such file" else None;
     close_answer := Some "watcher closed";
     new_loader_answer := None;
     load_answer := Some "prog.mtail:1:1: syntax error";
     vms_done := true;
     drain_time := 6 * Second;
     marshal_answer := inl "[]" |}.

(** The loader never signals [VMsDone]. *)
Definition hung : Script :=
  {| tail_answer := fun _ => None;
     close_answer := None;
     new_loader_answer := None;
     load_answer := None;
     vms_done := false;
     drain_time := 0;
     marshal_answer := inl "[]" |}.

(** [vm.NewLoader] fails. *)
Definition no_loader : Script :=
  {| tail_answer := fun _ => None;
     close_answer := None;
     new_loader_answer := Some "loader needs a store and lines";
     load_answer := None;
     vms_done := true;
     drain_time := 0;
     marshal_answer := inl "[]" |}.

(** A server as [New] leaves it, with the given pointers and settings. *)
Definition example_server (t : option Tailer) (l : option Loader)
    (h : option HTTPServer) (oneShot compileOnly dumpAst : bool)
    (programPath : string) (logPathPatterns : list string) : Server :=
  {| Server.lines := ChOpen;
     Server.store := MetricsStore;
     Server.w := LogWatcher;
     Server.t := t;
     Server.l := l;
     Server.e := Some {| exporter_opts := [] |};
     Server.reg := Some [];
     Server.h := h;
     Server.listener := Some "localhost:3903";
     Server.webquit := ChOpen;
     Server.closeQuit := ChOpen;
     Server.closeOnce := {| done := false |};
     Server.bindAddress := "localhost:3903";
     Server.buildInfo := {| Branch := ""; Version := ""; Revision := "" |};
     Server.programPath := programPath;
     Server.logPathPatterns := logPathPatterns;
     Server.oneShot := oneShot;
     Server.compileOnly := compileOnly;
     Server.dumpAst := dumpAst;
     Server.dumpAstTypes := false;
     Server.dumpBytecode := false;
     Server.overrideLocation := None;
     Server.expiredMetricGcTickInterval := 3600 * Second;
     Server.staleLogGcTickInterval := 3600 * Second;
     Server.syslogUseCurrentYear := false;
     Server.omitMetricSource := false;
     Server.omitProgLabel := false;
     Server.emitMetricTimestamp := false |}.

Definition a_tailer : option Tailer := Some {| tailer_opts := [] |}.
Definition a_loader : option Loader :=
  Some {| loader_programPath := "/etc/mtail"; loader_opts := [] |}.
Definition a_http_server : option HTTPServer := Some {| Handler := None |}.

(** A complete server in one-shot mode, and one built without loader and
    tailer. *)
Definition oneshot_state : State unit :=
  {| srv := example_server a_tailer a_loader a_http_server true false false
              "/etc/mtail" ["/var/log/syslog"; "/var/log/missing"];
     world := tt |}.

Definition bare_state : State unit :=
  {| srv := example_server None None a_http_server false false false "" [];
     world := tt |}.

(** A server in compile-only mode, and one that dumps the syntax tree
    without being in compile-only mode. *)
Definition compile_state : State unit :=
  {| srv := example_server a_tailer a_loader a_http_server false true false
              "/etc/mtail" ["/var/log/syslog"];
     world := tt |}.

Definition dump_state : State unit :=
  {| srv := example_server None None a_http_server false false true "" [];
     world := tt |}.

(** A one-shot server with a tailer and without loader. *)
Definition loaderless_state : State unit :=
  {| srv := example_server a_tailer None a_http_server true false false
              "" ["/var/log/syslog"];
     world := tt |}.

(** The complete one-shot server with [closeQuit] closed although [Close]
    has not run. *)
Definition half_closed_state : State unit :=
  {| srv := Server.set_closeQuit ChClosed (srv oneshot_state);
     world := tt |}.

(** A [GET] request to the quit endpoint and the writer of its response. *)
Definition get_request : Request := {| Method := "GET" |}.
Definition fresh_writer : ResponseWriter :=
  {| rw_header := []; rw_status := None; rw_body := "" |}.

(** Two goroutines have called [Close] on [oneshot_state] in a calm world:
    the first took the mutex, ran the shutdown and returned; the second
    found [done] set and returned. *)
Definition two_callers : Config unit :=
  {| shared := final (Close (scripted calm) oneshot_state);
     mutex := None;
     pcs := at_pc 1 Returned
              (at_pc 0 Returned
                 (at_pc 0 Finishing
                    (at_pc 0 Locked
                       (at_pc 0 WaitingLock (fun _ => Calling)))));
     history := events (Close (scripted calm) oneshot_state) |}.

(** ** The status page *)

(** [BuildInfo.String]; the Go version, architecture and operating system
    come from package runtime. *)
Definition BuildInfo_String (runtime_Version GOARCH GOOS : string)
    (b : BuildInfo) : string :=
  Sprintf
    "mtail version %s git revision %s go version %s go arch %s go os %s"
    [Version b; Revision b; runtime_Version; GOARCH; GOOS].

(** [Addr]: the address the server listens on, [none] without listener. *)
Definition Addr (m : Server) : string :=
  match Server.listener m with
  | None => "none"
  | Some addr => addr
  end.

(** The double quote of the Go source. *)
Definition dq : string := String (ascii_of_nat 34) EmptyString.

(** [const statusTemplate], line by line. *)
Definition statusTemplate : string :=
  String.append nl
    (String.append
       (String.concat nl
          ["<html>";
           "<head>";
           "<title>mtail on {{.BindAddress}}</title>";
           "</head>";
           "<body>";
           "<h1>mtail on {{.BindAddress}}</h1>";
           "<p>Build: {{.BuildInfo}}</p>";
           String.concat dq
             ["<p>Metrics: <a href="; "/json"; ">json</a>, <a href=";
              "/metrics"; ">prometheus</a>, <a href="; "/varz";
              ">varz</a></p>"];
           String.concat dq
             ["<p>Debug: <a href="; "/debug/pprof";
              ">debug/pprof</a>, <a href="; "/debug/vars";
              ">debug/vars</a></p>"]])
       nl).

(** *** Header keys

    [http.Header] stores its keys in the canonical form of
    [textproto.CanonicalMIMEHeaderKey]: the first letter and every letter
    after a hyphen in upper case, the others in lower case; a key with a
    byte that is no token byte is left as it is. *)
Definition is_lower (c : ascii) : bool :=
  ((97 <=? nat_of_ascii c) && (nat_of_ascii c <=? 122))%nat.
Definition is_upper (c : ascii) : bool :=
  ((65 <=? nat_of_ascii c) && (nat_of_ascii c <=? 90))%nat.
Definition is_digit (c : ascii) : bool :=
  ((48 <=? nat_of_ascii c) && (nat_of_ascii c <=? 57))%nat.

Definition validHeaderFieldByte (c : ascii) : bool :=
  is_lower c || is_upper c || is_digit c ||
  existsb (Ascii.eqb c)
    ["!"; "#"; "$"; "%"; "&"; "'"; "*"; "+"; "-"; "."; "^"; "_"; "`"; "|";
     "~"]%char.

Fixpoint all_valid (s : string) : bool :=
  match s with
  | EmptyString => true
  | String c rest => validHeaderFieldByte c && all_valid rest
  end.

Fixpoint canonical_from (upper : bool) (s : string) : string :=
  match s with
  | EmptyString => EmptyString
  | String c rest =>
      let c' :=
        if upper && is_lower c then ascii_of_nat (nat_of_ascii c - 32)
        else if negb upper && is_upper c then ascii_of_nat (nat_of_ascii c + 32)
        else c in
      String c' (canonical_from (Ascii.eqb c' "-") rest)
  end.

Definition CanonicalMIMEHeaderKey (s : string) : string :=
  if all_valid s then canonical_from true s else s.

(** [Header.Set]: the values of the key are replaced by the one value. *)
Definition Header_Set (key value : string) (w : ResponseWriter) : ResponseWriter :=
  let k := CanonicalMIMEHeaderKey key in
  {| rw_header :=
       filter (fun kv => negb (String.eqb (fst kv) k)) (rw_header w)
       ++ [(k, value)];
     rw_status := rw_status w;
     rw_body := rw_body w |}.

Definition StatusInternalServerError : Z := 500.

(** [http.Error]: two headers, the status, the message and a line feed. *)
Definition http_Error (msg : string) (code : Z) (w : ResponseWriter)
  : ResponseWriter :=
  let w := Header_Set "Content-Type" "text/plain; charset=utf-8" w in
  let w := Header_Set "X-Content-Type-Options" "nosniff" w in
  let w := WriteHeader code w in
  rw_Write (String.append msg nl) w.

(** What a function that is handed the writer wrote to it: nothing, or
    bytes through [Write]. *)
Definition written (out : string) (w : ResponseWriter) : ResponseWriter :=
  match out with
  | EmptyString => w
  | _ => rw_Write out w
  end.

(** What [ServeHTTP] calls besides the server: package runtime,
    html/template (parsing a text; executing it on the two fields of the
    data, with what it wrote and its error), and the status writers of the
    loader and of the tailer. *)
Record Pages (W : Type) := {
  runtime_Version : string;
  runtime_GOARCH : string;
  runtime_GOOS : string;
  template_Parse : string -> option error;
  template_Execute : string -> string -> string -> string * option error;
  loader_WriteStatusHTML : W -> W * (string * option error);
  tailer_WriteStatusHTML : W -> W * (string * option error)
}.

Section StatusPage.

Variable W : Type.
Variable P : Pages W.

(** A call into another package that leaves no event. *)
Definition call_quiet {A} (f : W -> W * A) : Go W A := fun st =>
  let (w', a) := f (world st) in
  mkResult (Ret a) {| srv := srv st; world := w' |} [].

Definition l_WriteStatusHTML : Go W (string * option error) :=
  m <- get_server ;;
  match Server.l m with
  | None => panic nil_dereference
  | Some _ => call_quiet (loader_WriteStatusHTML P)
  end.

Definition t_WriteStatusHTML : Go W (string * option error) :=
  m <- get_server ;;
  match Server.t m with
  | None => panic nil_dereference
  | Some _ => call_quiet (tailer_WriteStatusHTML P)
  end.

Definition ServeHTTP (w : ResponseWriter) (r : Request) : Go W ResponseWriter :=
  match template_Parse P statusTemplate with
  | Some err => ret (http_Error err StatusInternalServerError w)
  | None =>
      m <- get_server ;;
      let BindAddress := Server.bindAddress m in
      let BuildInfo :=
        BuildInfo_String (runtime_Version P) (runtime_GOARCH P)
                         (runtime_GOOS P) (Server.buildInfo m) in
      let w := Header_Add (CanonicalMIMEHeaderKey "Content-type") "text/html" w in
      let w := WriteHeader StatusOK w in
      let (out, err) := template_Execute P statusTemplate BindAddress BuildInfo in
      let w := written out w in
      let w :=
        match err with
        | Some e => http_Error e StatusInternalServerError w
        | None => w
        end in
      r1 <- l_WriteStatusHTML ;;
      let w := written (fst r1) w in
      match snd r1 with
      | Some e => glog WARNING "Error while writing loader status: %s" [e]
      | None => ret tt
      end ;;
      r2 <- t_WriteStatusHTML ;;
      let w := written (fst r2) w in
      match snd r2 with
      | Some e => glog WARNING "Error while writing tailer status: %s" [e]
      | None => ret tt
      end ;;
      ret w
  end.

End StatusPage.

(** ** Reading the construction of a server *)

(** What [New] does after the options, with its result: the exporter, the
    loader with its initial load if any, the tailer, up to the first
    failure. *)
Inductive init_trace
  : list Event -> Outcome (option Server * option error) -> Prop :=
| init_exporter_fails eo e :
    init_trace [ExporterNew eo (Some e)] (Ret (None, Some e))
| init_loader_fails eo p lo e :
    init_trace [ExporterNew eo None; NewLoader p lo (Some e)]
               (Ret (None, Some e))
| init_load_fails eo p lo es :
    p <> "" ->
    init_trace [ExporterNew eo None; NewLoader p lo None;
                LoadAllPrograms (Some es)]
               (Ret (None,
                     Some (String.append "Compile encountered errors:"
                             (String.append nl es))))
| init_tailer_fails eo p lo load to e :
    (if String.eqb p "" then load = [] else load = [LoadAllPrograms None]) ->
    init_trace (ExporterNew eo None :: NewLoader p lo None :: load
                ++ [TailerNew to (Some e)])
               (Ret (None, Some e))
| init_done eo p lo load to m :
    (if String.eqb p "" then load = [] else load = [LoadAllPrograms None]) ->
    init_trace (ExporterNew eo None :: NewLoader p lo None :: load
                ++ [TailerNew to None])
               (Ret (Some m, None)).

(** An option that leaves the channels, the once-guard and the HTTP server
    of the server as they are. *)
Definition keeps_lifecycle {W} (o : Go W (option error)) : Prop :=
  forall st,
    let m := srv st in
    let m' := srv (final (o st)) in
    Server.closeQuit m' = Server.closeQuit m /\
    Server.lines m' = Server.lines m /\
    Server.webquit m' = Server.webquit m /\
    Server.closeOnce m' = Server.closeOnce m /\
    Server.h m' = Server.h m.

(** ** More examples *)

Definition post_request : Request := {| Method := "POST" |}.

(** The server that [New] builds without any option: continuous mode, no
    bind address. *)
Definition unbound_state : State unit :=
  final (New (scripted calm) MetricsStore LogWatcher [] tt).

(** A complete server in continuous mode that listens on port 3903. *)
Definition serving_state : State unit :=
  {| srv := example_server a_tailer a_loader a_http_server false false false
              "/etc/mtail" ["/var/log/syslog"];
     world := tt |}.

(** The same packages, in a process that is never sent a signal. *)
Definition without_signal {W} (X : External W) : External W :=
  {| tailer_New := tailer_New X;
     tailer_TailPattern := tailer_TailPattern X;
     tailer_Close := tailer_Close X;
     tailer_StartGcLoop := tailer_StartGcLoop X;
     vm_NewLoader := vm_NewLoader X;
     loader_LoadAllPrograms := loader_LoadAllPrograms X;
     loader_VMsDone := loader_VMsDone X;
     exporter_New := exporter_New X;
     exporter_StartMetricPush := exporter_StartMetricPush X;
     store_StartGcLoop := store_StartGcLoop X;
     json_MarshalIndent := json_MarshalIndent X;
     stdout_Write := stdout_Write X;
     http_Shutdown := http_Shutdown X;
     http_Serve := http_Serve X;
     os_signal := fun _ => None;
     runtime_select := runtime_select X |}.

(** An option that fails. *)
Definition failing_option {W} (e : error) : Go W (option error) := ret (Some e).

(** Status pages: the template is fine, its execution fails half way, the
    loader's page fails, the tailer's is written. *)
Definition torn_pages : Pages unit :=
  {| runtime_Version := "go1.12";
     runtime_GOARCH := "amd64";
     runtime_GOOS := "linux";
     template_Parse := fun _ => None;
     template_Execute := fun _ _ _ => ("<html>", Some "broken pipe");
     loader_WriteStatusHTML := fun w => (w, ("", Some "no programs"));
     tailer_WriteStatusHTML := fun w => (w, ("<h2>Log files</h2>", None)) |}.

(** The metrics cannot be marshalled. *)
Definition unmarshallable : Script :=
  {| tail_answer := fun _ => None;
     close_answer := None;
     new_loader_answer := None;
     load_answer := None;
     vms_done := true;
     drain_time := 0;
     marshal_answer := inr "json: unsupported value: NaN" |}.

(** * Properties *)

(** Evaluation of a computation on a state whose server is a record of
    variables. *)
Ltac go_eval :=
  cbv beta iota zeta delta
    [bind ret emit glog glog_Exitf close get_server update_server call call_
     recv panic block os_Exit once_done store_done chan_of set_chan
     outcome final events srv world done
     Server.lines Server.store Server.w Server.t Server.l Server.e Server.reg
     Server.h Server.listener Server.webquit Server.closeQuit Server.closeOnce
     Server.bindAddress Server.buildInfo Server.programPath
     Server.logPathPatterns Server.oneShot Server.compileOnly Server.dumpAst
     Server.dumpAstTypes Server.dumpBytecode Server.overrideLocation
     Server.expiredMetricGcTickInterval Server.staleLogGcTickInterval
     Server.syslogUseCurrentYear Server.omitMetricSource Server.omitProgLabel
     Server.emitMetricTimestamp
     Server.set_lines Server.set_t Server.set_l Server.set_e Server.set_reg
     Server.set_h Server.set_webquit Server.set_closeQuit Server.set_closeOnce
     context_WithTimeout context_Background].

Ltac go_eval_in H :=
  cbv beta iota zeta delta
    [bind ret emit glog glog_Exitf close get_server update_server call call_
     recv panic block os_Exit once_done store_done chan_of set_chan
     outcome final events srv world done
     Server.lines Server.store Server.w Server.t Server.l Server.e Server.reg
     Server.h Server.listener Server.webquit Server.closeQuit Server.closeOnce
     Server.bindAddress Server.buildInfo Server.programPath
     Server.logPathPatterns Server.oneShot Server.compileOnly Server.dumpAst
     Server.dumpAstTypes Server.dumpBytecode Server.overrideLocation
     Server.expiredMetricGcTickInterval Server.staleLogGcTickInterval
     Server.syslogUseCurrentYear Server.omitMetricSource Server.omitProgLabel
     Server.emitMetricTimestamp
     Server.set_lines Server.set_t Server.set_l Server.set_e Server.set_reg
     Server.set_h Server.set_webquit Server.set_closeQuit Server.set_closeOnce
     context_WithTimeout context_Background] in H.

(** Case analysis on the value that blocks the evaluation in [E]. *)
Ltac destruct_stuck_in E :=
  match type of E with
  | context [match ?x with _ => _ end] =>
      lazymatch x with
      | context [match _ with _ => _ end] => fail
      | _ => destruct x eqn:?
      end
  end.

Ltac go_run E := repeat (progress (go_eval_in E) || destruct_stuck_in E).

Ltac split_in H :=
  repeat match type of H with
         | _ \/ _ => destruct H as [H | H]
         | False => contradiction
         end.

Section CloseProperties.

Variable W : Type.
Variable X : External W.

(** A second call finds [done] set and does nothing. *)
Lemma Close_done_noop (st : State W) :
  once_done st = true -> Close X st = mkResult (Ret None) st [].
Proof.
  intros Hd. unfold Close, closeOnce_Do, bind. rewrite Hd. reflexivity.
Qed.

(** After a call has returned, [done] is set. *)
Lemma Close_marks_done (st : State W) :
  returned (Close X st) = true -> once_done (final (Close X st)) = true.
Proof.
  unfold returned. destruct st as [m w0].
  destruct (once_done {| srv := m; world := w0 |}) eqn:Hd.
  - rewrite Close_done_noop by assumption. intros _. exact Hd.
  - unfold Close, closeOnce_Do, bind. rewrite Hd.
    destruct (shutdown X {| srv := m; world := w0 |}) as [[[]| |msg|code] st1 ev];
      cbn; intros H; try discriminate H. destruct st1. reflexivity.
Qed.

(** The server that [New] starts from is well formed, and so is every
    server on which [Close] has returned. *)
Lemma new_server_well_formed (store : Store) (w : Watcher) :
  well_formed (new_server store w).
Proof. intros _. split; intros; reflexivity. Qed.

Lemma Close_keeps_well_formed (st : State W) :
  returned (Close X st) = true -> well_formed (srv (final (Close X st))).
Proof.
  intros Hr Hd. pose proof (@Close_marks_done st Hr) as H.
  unfold once_done in H. congruence.
Qed.

(** [Close] writes nothing to the standard output and starts neither the
    HTTP server nor a garbage collection loop. *)
Lemma Close_no_output (st : State W) (ev : Event) :
  In ev (events (Close X st)) -> is_stdout ev = false /\ is_serving ev = false.
Proof.
  destruct st as [m w0]. destruct m. destruct closeOnce as [d].
  remember (Close X _) as r eqn:E.
  unfold Close, closeOnce_Do, shutdown in E.
  go_run E; subst r; cbn; intros H; split_in H; subst ev; split; reflexivity.
Qed.

(** C1, as amended.  A call of [Close] that performs the shutdown, on a
    well-formed server, closes
    [closeQuit], then closes the line ingestion (the tailer's [Close] when
    there is a tailer, the [lines] channel otherwise), then waits for
    [VMsDone] when there is a loader and does not wait when there is none,
    then shuts the HTTP server down when there is one.  When the loader
    never signals, the call stays blocked after the second step. *)
Theorem Close_order (st : State W) :
  once_done st = false ->
  well_formed (srv st) ->
  exists r1,
    (outcome (Close X st) = Blocked /\
     Server.l (srv st) <> None /\
     steps (events (Close X st)) =
       [ChanClose ch_closeQuit; ingestion_step (srv st) r1])
    \/
    (outcome (Close X st) = Ret None /\
     exists r2,
       steps (events (Close X st)) =
         [ChanClose ch_closeQuit; ingestion_step (srv st) r1]
         ++ match Server.l (srv st) with Some _ => [RecvVMsDone] | None => [] end
         ++ match Server.h (srv st) with
            | Some _ => [HTTPShutdown shutdown_ctx r2; CtxCancel]
            | None => []
            end).
Proof.
  destruct st as [m w0]. unfold once_done, well_formed. destruct m. cbn.
  intros Hd Hwf. destruct (Hwf Hd) as [Hq Hl]. clear Hwf.
  destruct closeOnce as [d]. cbn in Hd. subst.
  assert (Hlines : t = None -> lines = ChOpen) by exact Hl. clear Hl.
  remember (Close X _) as r eqn:E.
  unfold Close, closeOnce_Do, shutdown, ingestion_step, shutdown_ctx in *.
  destruct t; [| rewrite (Hlines eq_refl) in E ]; clear Hlines.
  all: go_run E; subst r; cbn.
  all: first
    [ eexists; left; split; [reflexivity | split; [discriminate | reflexivity]]
    | exists None; left; split; [reflexivity | split; [discriminate | reflexivity]]
    | eexists; right; split; [reflexivity | eexists; reflexivity]
    | exists None; right; split; [reflexivity | exists None; reflexivity]
    | eexists; right; split; [reflexivity | exists None; reflexivity]
    | exists None; right; split; [reflexivity | eexists; reflexivity] ].
Qed.

(** C7.  Whenever [Close] calls [Shutdown] on the HTTP server, the context
    it passes has a time-out of exactly five seconds; whatever [Shutdown]
    answers, an error after the time-out included, [Close] only logs it,
    cancels the context, logs the end and returns [nil]. *)
Theorem Close_http_timeout (st : State W) (ctx : Context) (r : option error) :
  In (HTTPShutdown ctx r) (events (Close X st)) ->
  ctx_timeout ctx = Some (5 * Second) /\
  5 * Second = 5000000000 /\
  outcome (Close X st) = Ret None /\
  exists before,
    events (Close X st) =
      before ++ HTTPShutdown ctx r
             :: match r with Some e => [Glog ERROR "%v" [e]] | None => [] end
             ++ [CtxCancel; Glog INFO "END OF LINE" []].
Proof.
  destruct st as [m w0]. destruct m. destruct closeOnce as [d].
  remember (Close X _) as res eqn:E.
  unfold Close, closeOnce_Do, shutdown in E.
  go_run E; subst res; cbn; intros H; split_in H; try discriminate H.
  all: injection H as <- <-.
  all: repeat split.
  all: match goal with
       | |- exists before, ?l = _ =>
           match l with
           | context [HTTPShutdown ?c ?x :: ?tl] =>
               let n := constr:((length l - length (HTTPShutdown c x :: tl))%nat) in
               exists (firstn n l); reflexivity
           end
       end.
Qed.

(** C8, as amended.  [Close] never returns an error: a call returns
    [nil], or stays blocked, or panics.  On a well-formed server it
    returns [nil] whenever its wait for the loader ends, and it does so
    also when the tailer's [Close] or the HTTP server's [Shutdown] fails:
    such an error is logged and the shutdown goes on. *)
Theorem Close_returns_nil (st : State W) :
  (forall e, outcome (Close X st) <> Ret (Some e)) /\
  (outcome (Close X st) = Ret None \/ outcome (Close X st) = Blocked \/
   exists msg, outcome (Close X st) = Panic msg) /\
  (well_formed (srv st) -> wait_ends X st -> outcome (Close X st) = Ret None) /\
  (forall e,
     In (TailerClose (Some e)) (events (Close X st)) ->
     In (Glog INFO "tailer close failed: %s" [e]) (events (Close X st))) /\
  (forall ctx e,
     In (HTTPShutdown ctx (Some e)) (events (Close X st)) ->
     In (Glog ERROR "%v" [e]) (events (Close X st)) /\
     outcome (Close X st) = Ret None).
Proof.
  destruct st as [m w0]. unfold well_formed, wait_ends, world_at_wait, once_done.
  destruct m. destruct closeOnce as [d]. cbn.
  remember (Close X _) as res eqn:E.
  unfold Close, closeOnce_Do, shutdown in E.
  go_run E; subst res; cbn.
  all: split; [ intros e' H; discriminate H | split; [ | split; [ | split ] ] ].
  all: try solve [ left; reflexivity | right; left; reflexivity
                 | right; right; eexists; reflexivity ].
  all: try (intros Hwf [Hw | [Hw | Hw]]; try discriminate Hw; try reflexivity;
            try (destruct (Hwf eq_refl) as [Hq Hl]; try discriminate Hq;
                 try (specialize (Hl eq_refl); discriminate Hl));
            exfalso; apply Hw; first [assumption | reflexivity]).
  all: try (intros e' H; split_in H; try discriminate H;
            injection H as <-; auto 20).
  all: try (intros ctx' e' H; split_in H; try discriminate H;
            injection H as <- <-; (split; [auto 20 | reflexivity])).
Qed.

(** [Close] ends with [return nil]. *)
Lemma Close_outcome_nil (st : State W) (a : option error) :
  outcome (Close X st) = Ret a -> a = None.
Proof.
  unfold Close, bind.
  destruct (closeOnce_Do (shutdown X) st) as [[[]| |msg|code] st1 ev];
    cbn; congruence.
Qed.

(** What [Close] is when [done] is not set, in terms of the function it
    guards. *)
Lemma Close_unfold (st : State W) :
  once_done st = false ->
  Close X st =
    match shutdown X st with
    | mkResult (Ret _) st1 ev => mkResult (Ret None) (store_done st1) ev
    | mkResult Blocked st1 ev => mkResult Blocked st1 ev
    | mkResult (Panic msg) st1 ev => mkResult (Panic msg) (store_done st1) ev
    | mkResult (Exited code) st1 ev => mkResult (Exited code) st1 ev
    end.
Proof.
  intros Hd. unfold Close, closeOnce_Do, bind. rewrite Hd.
  destruct (shutdown X st) as [[[]| |msg|code] st1 ev]; cbn;
    rewrite ?app_nil_r; reflexivity.
Qed.

Lemma store_done_done (st : State W) : once_done (store_done st) = true.
Proof. destruct st as [m w0]. destruct m. reflexivity. Qed.

(** One goroutine calling [Close] again and again. *)
Lemma times_Close (n : nat) (st : State W) :
  times n (Close X) st = Close X st.
Proof.
  revert st. induction n as [|n IH]; intros st; [reflexivity|].
  cbn [times]. unfold bind at 1.
  pose proof (Close_marks_done st) as Hm.
  pose proof (@Close_outcome_nil st) as Hn.
  unfold returned in Hm.
  destruct (Close X st) as [[a| |msg|code] st1 ev]; cbn in *; try reflexivity.
  rewrite IH, (@Close_done_noop st1 (Hm eq_refl)), (Hn a eq_refl), app_nil_r.
  reflexivity.
Qed.

(** [closeQuit] is closed at most once by a call, and exactly once by a call
    that performs the shutdown on a well-formed server. *)
Lemma Close_closes_closeQuit (st : State W) :
  (closeQuit_closings (events (Close X st)) <= 1)%nat /\
  (once_done st = false -> well_formed (srv st) ->
   closeQuit_closings (events (Close X st)) = 1%nat).
Proof.
  destruct st as [m w0]. unfold well_formed, once_done.
  destruct m. destruct closeOnce as [d]. cbn.
  remember (Close X _) as res eqn:E.
  unfold Close, closeOnce_Do, shutdown in E.
  go_run E; subst res; cbn; split; try lia; try reflexivity.
  all: intros Hd Hwf; try discriminate Hd.
  all: destruct (Hwf eq_refl) as [Hq _]; discriminate Hq.
Qed.

(** *** Concurrent callers *)

Lemma at_pc_same (i : nat) (p : pc) (f : nat -> pc) : at_pc i p f i = p.
Proof. unfold at_pc. rewrite Nat.eqb_refl. reflexivity. Qed.

Lemma at_pc_other (i j : nat) (p : pc) (f : nat -> pc) :
  j <> i -> at_pc i p f j = f j.
Proof.
  intros H. unfold at_pc. destruct (Nat.eqb_spec j i); [contradiction|reflexivity].
Qed.

Lemma once_invariant_start (st : State W) : once_invariant X st (start st).
Proof.
  split.
  - intros i H. discriminate H.
  - left. repeat split.
Qed.

Lemma lock_owned_step (c c' : Config W) :
  lock_owned c -> step X c c' -> lock_owned c'.
Proof.
  intros Hlock Hstep.
  destruct Hstep as [i c Hpc Hd | i c Hpc Hd | i c Hpc Hm | i c Hpc Hd
                    | i c Hpc Hd Ho | i c Hpc Hd Ho | i c msg Hpc Hd Ho
                    | i c Hpc].
  all: unfold lock_owned in *; intros j Hj; cbn in Hj |- *; unfold at_pc in Hj.
  all: destruct (Nat.eqb_spec j i) as [Heq|Hne]; [subst j|];
    [ try discriminate Hj; try reflexivity;
      apply Hlock; rewrite Hpc; reflexivity
    | pose proof (Hlock j Hj) as Hown; try exact Hown; try congruence;
      assert (Hi : mutex c = Some i) by (apply Hlock; rewrite Hpc; reflexivity);
      congruence ].
Qed.

(** A goroutine that is not blocked in the function leaves a blocked one
    where it is. *)
Lemma stuck_stays (c : Config W) (i : nat) (p : pc) :
  pcs c i <> Stuck ->
  (exists j, pcs c j = Stuck) -> exists j, at_pc i p (pcs c) j = Stuck.
Proof.
  intros Hi [j Hj]. exists j. rewrite at_pc_other; [exact Hj|].
  intros Heq. apply Hi. rewrite <- Heq. exact Hj.
Qed.

(** While a goroutine holds the mutex before the function, no other is
    blocked in the function and [done] is unset: the function has not run. *)
Lemma locked_not_yet (st : State W) (c : Config W) (i : nat) :
  once_invariant X st c ->
  pcs c i = Locked -> once_done (shared c) = false ->
  shared c = st /\ history c = [].
Proof.
  intros [Hlock [[Hs [Hh _]] | [_ [_ [_ [Hd | [j Hj]]]]]]] Hpc Hnd.
  - split; assumption.
  - congruence.
  - assert (Hmi : mutex c = Some i) by (apply Hlock; rewrite Hpc; reflexivity).
    assert (Hmj : mutex c = Some j) by (apply Hlock; rewrite Hj; reflexivity).
    assert (i = j) by congruence. subst j. congruence.
Qed.

Lemma once_invariant_step (st : State W) (c c' : Config W) :
  once_invariant X st c -> step X c c' -> once_invariant X st c'.
Proof.
  intros Hinv Hstep. split; [exact (@lock_owned_step c c' (proj1 Hinv) Hstep)|].
  destruct Hstep as [i c Hpc Hd | i c Hpc Hd | i c Hpc Hm | i c Hpc Hd
                    | i c Hpc Hd Ho | i c Hpc Hd Ho | i c msg Hpc Hd Ho
                    | i c Hpc].
  5,6,7: destruct (@locked_not_yet st c i Hinv Hpc Hd) as [Hs Hh]; right;
         rewrite Hs in Hd, Ho |- *; unfold ran_once;
         cbn [shared history pcs mutex];
         rewrite Hh, (@Close_unfold st Hd);
         destruct (shutdown X st) as [o st1 ev]; cbn [outcome] in Ho; subst o;
         cbn [events final app];
         repeat split; try assumption;
         first [ left; apply store_done_done
               | right; exists i; apply at_pc_same ].
  all: destruct Hinv as [Hlock [[Hs [Hh He]] | [Hnd [Hh [Hs Hfin]]]]]; cbn in *.
  all: try (right; repeat split; try assumption;
            destruct Hfin as [Hfin | Hfin]; [left; exact Hfin|];
            right; apply stuck_stays; [congruence | exact Hfin]).
  all: left; repeat split; try assumption; intros Hnd.
  all: try (rewrite Hs in Hd; congruence).
  all: try (specialize (He Hnd i); rewrite Hpc in He; discriminate He).
  all: intros j; cbn [pcs]; unfold at_pc; destruct (Nat.eqb_spec j i);
       [reflexivity | apply He; exact Hnd].
Qed.

Lemma once_invariant_reachable (st : State W) (c : Config W) :
  reachable X st c -> once_invariant X st c.
Proof.
  induction 1 as [|c c' _ IH Hstep].
  - apply once_invariant_start.
  - exact (@once_invariant_step st c c' IH Hstep).
Qed.

(** A call that performs the shutdown with a loader returns only after the
    loader has signalled. *)
Lemma Close_waits (st : State W) :
  once_done st = false -> Server.l (srv st) <> None ->
  returned (Close X st) = true -> In RecvVMsDone (events (Close X st)).
Proof.
  destruct st as [m w0]. unfold once_done, returned.
  destruct m. destruct closeOnce as [d]. cbn.
  remember (Close X _) as res eqn:E.
  unfold Close, closeOnce_Do, shutdown in E.
  go_run E; subst res; cbn; intros Hd Hl Hr;
    try discriminate; try contradiction; auto 20.
Qed.

(** [Close] waits for the loader only when it performs the shutdown on a
    server with a loader. *)
Lemma Close_waits_only (st : State W) :
  In RecvVMsDone (events (Close X st)) ->
  once_done st = false /\ Server.l (srv st) <> None.
Proof.
  destruct st as [m w0]. unfold once_done.
  destruct m. destruct closeOnce as [d]. cbn.
  remember (Close X _) as res eqn:E.
  unfold Close, closeOnce_Do, shutdown in E.
  go_run E; subst res; cbn; intros H; split_in H; try discriminate H;
    (split; [reflexivity | discriminate]).
Qed.

(** C3.  However often [Close] is called, the shutdown sequence runs once.
    One goroutine calling it [n + 1] times does what a single call does; a
    call that finds [done] set returns [nil] and touches nothing.  Under
    any interleaving of any number of concurrent callers the events of the
    shutdown are, at every moment, none or those of one single call,
    [closeQuit] is closed at most once, and as soon as one caller has
    returned the server is as one single call leaves it. *)
Theorem Close_idempotent :
  (forall st n, times n (Close X) st = Close X st) /\
  (forall st, once_done st = true -> Close X st = mkResult (Ret None) st []) /\
  (forall st c,
     reachable X st c ->
     ((history c = [] /\ shared c = st) \/
      (history c = events (Close X st) /\ shared c = final (Close X st))) /\
     (closeQuit_closings (history c) <= 1)%nat /\
     (forall i, pcs c i = Returned ->
        history c = events (Close X st) /\ shared c = final (Close X st))).
Proof.
  split; [ intros st n; apply times_Close | ].
  split; [ exact Close_done_noop | ].
  intros st c Hreach.
  destruct (once_invariant_reachable Hreach)
    as [_ [[Hs [Hh He]] | [Hnd [Hh [Hs _]]]]].
  - split; [left; split; assumption|].
    split; [rewrite Hh; cbn; lia|].
    intros i Hi. destruct (once_done st) eqn:Hd.
    + rewrite (@Close_done_noop st Hd). split; assumption.
    + specialize (He eq_refl i). rewrite Hi in He. discriminate He.
  - split; [right; split; assumption|].
    split; [rewrite Hh; apply Close_closes_closeQuit|].
    intros i _. split; assumption.
Qed.

End CloseProperties.

Section RunProperties.

Variable W : Type.
Variable X : External W.

(** The body of the loop of [StartTailing]. *)
Local Abbreviation tail_body :=
  (fun pattern : string =>
     glog (V 1) "Tail pattern %q" [pattern] ;;
     err <- t_TailPattern X pattern ;;
     match err with
     | Some e => glog WARNING "%v" [e]
     | None => ret tt
     end).

(** One turn of the loop. *)
Lemma tail_body_step (p : string) (m : Server) (w0 : W) :
  tail_body p {| srv := m; world := w0 |} =
    match Server.t m with
    | None =>
        mkResult (Panic nil_dereference) {| srv := m; world := w0 |}
                 [Glog (V 1) "Tail pattern %q" [p]]
    | Some _ =>
        mkResult (Ret tt)
          {| srv := m; world := fst (tailer_TailPattern X p w0) |}
          (Glog (V 1) "Tail pattern %q" [p]
           :: TailPattern p (snd (tailer_TailPattern X p w0))
           :: match snd (tailer_TailPattern X p w0) with
              | Some e => [Glog WARNING "%v" [e]]
              | None => []
              end)
    end.
Proof.
  unfold t_TailPattern. destruct m. go_eval.
  destruct t; [|reflexivity].
  destruct (tailer_TailPattern X p w0) as [w1 [err|]]; reflexivity.
Qed.

(** The loop, by induction on the patterns: it leaves the server as it is,
    it goes through all patterns when there is a tailer, and the only way
    it does not come to its end is the call through a [nil] tailer. *)
Lemma tail_loop (patterns : list string) (m : Server) (w0 : W) :
  let r := for_each patterns tail_body {| srv := m; world := w0 |} in
  srv (final r) = m /\
  (outcome r = Ret tt \/
   (Server.t m = None /\ outcome r = Panic nil_dereference)) /\
  (Server.t m <> None ->
   outcome r = Ret tt /\ tail_patterns (events r) = patterns) /\
  (forall p e, In (TailPattern p (Some e)) (events r) ->
               In (Glog WARNING "%v" [e]) (events r)) /\
  (forall ev, In ev (events r) -> is_silent ev = true).
Proof.
  revert w0. induction patterns as [|p ps IH]; intros w0.
  - cbn. repeat split; auto; try contradiction.
  - intros r.
    assert (E : r = bind (tail_body p) (fun _ => for_each ps tail_body)
                         {| srv := m; world := w0 |}) by reflexivity.
    clearbody r. unfold bind at 1 in E. rewrite tail_body_step in E.
    destruct (Server.t m) as [tl|] eqn:Ht; subst r.
    + specialize (IH (fst (tailer_TailPattern X p w0))). cbv zeta in IH.
      destruct (for_each ps _ _) as [o st2 ev2]. cbn [outcome final events] in *.
      destruct IH as (Hsrv & Hout & Hall & Hwarn & Hsil).
      split; [exact Hsrv|].
      split; [destruct Hout as [Hout | [Hout _]]; [left; exact Hout | discriminate Hout]|].
      split.
      { intros _. destruct (Hall ltac:(discriminate)) as [Ho Hp].
        split; [exact Ho|]. unfold tail_patterns in *. cbn.
        destruct (snd (tailer_TailPattern X p w0)); cbn; rewrite Hp; reflexivity. }
      split.
      * intros p' e' H. cbn in H. destruct H as [H|[H|H]]; try discriminate H.
        -- injection H as <- Hr. rewrite Hr. cbn. auto.
        -- apply in_app_or in H. destruct H as [H|H].
           ++ destruct (snd (tailer_TailPattern X p w0));
                cbn in H; split_in H; discriminate H.
           ++ right. right. apply in_or_app. right. exact (Hwarn p' e' H).
      * intros ev H. cbn in H. destruct H as [H|[H|H]]; try (subst ev; reflexivity).
        apply in_app_or in H. destruct H as [H|H]; [|auto].
        destruct (snd (tailer_TailPattern X p w0));
          cbn in H; split_in H; subst ev; reflexivity.
    + cbn. split; [reflexivity|].
      split; [right; split; reflexivity|].
      split; [intros Hne; contradiction|].
      split.
      * intros p' e' [H|H]; [discriminate H | contradiction].
      * intros ev [H|H]; [subst ev; reflexivity | contradiction].
Qed.

(** [StartTailing] in terms of its loop. *)
Lemma StartTailing_loop (st : State W) :
  StartTailing X st =
    match for_each (Server.logPathPatterns (srv st)) tail_body st with
    | mkResult (Ret _) st1 ev => mkResult (Ret None) st1 ev
    | mkResult Blocked st1 ev => mkResult Blocked st1 ev
    | mkResult (Panic msg) st1 ev => mkResult (Panic msg) st1 ev
    | mkResult (Exited code) st1 ev => mkResult (Exited code) st1 ev
    end.
Proof.
  unfold StartTailing. unfold bind at 1. cbn. unfold bind at 1.
  destruct (for_each _ _ st) as [[[]| |msg|code] st1 ev]; cbn;
    rewrite ?app_nil_r; reflexivity.
Qed.

Lemma StartTailing_cases (st : State W) :
  let r := StartTailing X st in
  srv (final r) = srv st /\
  (outcome r = Ret None \/
   (Server.t (srv st) = None /\ outcome r = Panic nil_dereference)) /\
  (Server.t (srv st) <> None ->
   outcome r = Ret None /\
   tail_patterns (events r) = Server.logPathPatterns (srv st)) /\
  (forall p e, In (TailPattern p (Some e)) (events r) ->
               In (Glog WARNING "%v" [e]) (events r)) /\
  (forall ev, In ev (events r) -> is_silent ev = true).
Proof.
  cbv zeta. rewrite StartTailing_loop. destruct st as [m w0]. cbn [srv].
  pose proof (tail_loop (Server.logPathPatterns m) m w0) as H. cbv zeta in H.
  destruct (for_each _ _ _) as [o st1 ev]. cbn in H.
  destruct H as (Hsrv & Hout & Hall & Hwarn & Hsil).
  destruct Hout as [-> | [Ht ->]]; cbn.
  - split; [exact Hsrv|]. split; [left; reflexivity|].
    split; [|split; assumption].
    intros Hne. split; [reflexivity | apply (Hall Hne)].
  - split; [exact Hsrv|]. split; [right; split; [exact Ht | reflexivity]|].
    split; [|split; assumption].
    intros Hne. contradiction.
Qed.

Lemma is_silent_split (ev : Event) :
  is_silent ev = true -> is_stdout ev = false /\ is_serving ev = false.
Proof.
  unfold is_silent. destruct (is_stdout ev), (is_serving ev); cbn;
    intros H; try discriminate H; split; reflexivity.
Qed.

Ltac bind_eval_in E :=
  cbv beta iota zeta delta
    [bind get_server ret emit glog glog_Exitf os_Exit call call_ update_server
     outcome final events srv world] in E.

(** What [WriteMetrics] does with the standard output. *)
Lemma WriteMetrics_stdout (st : State W) :
  let r := WriteMetrics X (os_Stdout X) st in
  srv (final r) = srv st /\
  (exists a, outcome r = Ret a) /\
  (forall ev, In ev (events r) -> is_serving ev = false).
Proof.
  intros r. assert (E : r = WriteMetrics X (os_Stdout X) st) by reflexivity.
  clearbody r. destruct st as [m w0].
  unfold WriteMetrics, os_Stdout, json_Marshal_store in E. bind_eval_in E.
  destruct (json_MarshalIndent X w0) as [b|err].
  - destruct (stdout_Write X b w0) as [w1 r1]. subst r. cbn.
    split; [reflexivity|]. split; [eexists; reflexivity|].
    intros ev H; split_in H; subst ev; reflexivity.
  - subst r. cbn. split; [reflexivity|]. split; [eexists; reflexivity|].
    intros ev H; split_in H; subst ev; reflexivity.
Qed.

(** C5.  With [compileOnly] set, [Run] logs that it exits and returns [nil]:
    it calls nothing else and leaves the server and the world as they are,
    so it neither tails, nor starts a loop, nor closes, nor serves. *)
Theorem Run_compileOnly (st : State W) :
  Server.compileOnly (srv st) = true ->
  Run X st = mkResult (Ret None) st [Glog INFO "compile-only is set, exiting" []].
Proof.
  intros Hc. unfold Run. unfold bind at 1. cbn [get_server]. rewrite Hc.
  reflexivity.
Qed.

(** C2, as amended.  In one-shot mode and not compile-only, [Run] is
    [StartTailing], then [Close] on the state the tailing leaves, then,
    only when [Close] has returned, the line [Metrics store:] and
    [WriteMetrics] on the standard output.  With a tailer the tailing
    returns and hands every log path pattern to the tailer, in order.
    A [Close] that returns has waited for [VMsDone] exactly when it had to
    perform the shutdown on a server with a loader: without loader, or
    when the shutdown has run before, there is no wait.  After [Close],
    [WriteMetrics] writes the marshalled metrics to the standard output
    and [Run] returns what that write returned, or, when the metrics
    cannot be marshalled, writes nothing and [Run] returns that error
    wrapped.  Nothing is written to the standard output before [Close] is
    over, and no event of [Run] starts the HTTP server or a garbage
    collection loop. *)
Theorem Run_oneShot (st : State W) :
  Server.oneShot (srv st) = true ->
  Server.compileOnly (srv st) = false ->
  let tailing := StartTailing X st in
  let closing := Close X (final tailing) in
  let writing := WriteMetrics X (os_Stdout X) (final closing) in
  events (Run X st) =
    events tailing
    ++ (if returned tailing then
          events closing
          ++ (if returned closing then
                Printf "Metrics store:" :: events writing
              else [])
        else []) /\
  (Server.t (srv st) <> None ->
   returned tailing = true /\
   tail_patterns (events tailing) = Server.logPathPatterns (srv st)) /\
  (returned closing = true ->
   (In RecvVMsDone (events closing) <->
    once_done st = false /\ Server.l (srv st) <> None)) /\
  (returned tailing = true -> returned closing = true ->
   match json_MarshalIndent X (world (final closing)) with
   | inl b =>
       let r := snd (stdout_Write X b (world (final closing))) in
       events writing = [StoreRLock; StoreRUnlock; StdoutWrite b r] /\
       outcome (Run X st) = Ret r
   | inr err =>
       events writing = [StoreRLock; StoreRUnlock] /\
       outcome (Run X st) =
         Ret (Some (Wrap err "failed to marshal metrics into json"))
   end) /\
  (forall ev, In ev (events tailing ++ events closing) -> is_stdout ev = false) /\
  (forall ev, In ev (events (Run X st)) -> is_serving ev = false) /\
  (returned (Run X st) = true ->
   returned tailing = true /\ returned closing = true).
Proof.
  destruct st as [m w0]. intros Hone Hcomp tailing closing writing.
  cbn [srv] in Hone, Hcomp |- *.
  (* what is known of the three parts *)
  pose proof (StartTailing_cases {| srv := m; world := w0 |}) as Ht.
  cbv zeta in Ht. fold tailing in Ht. cbn [srv] in Ht.
  destruct Ht as (Hsrv & Hout & Hall & _ & Hsil).
  pose proof (@Close_no_output W X (final tailing)) as Hquiet.
  pose proof (@Close_outcome_nil W X (final tailing)) as Hnil.
  pose proof (@Close_waits W X (final tailing)) as Hwaits.
  pose proof (@Close_waits_only W X (final tailing)) as Honly.
  fold closing in Hquiet, Hnil, Hwaits, Honly.
  assert (Hwr :
    match json_MarshalIndent X (world (final closing)) with
    | inl b =>
        writing =
          mkResult (Ret (snd (stdout_Write X b (world (final closing)))))
            {| srv := srv (final closing);
               world := fst (stdout_Write X b (world (final closing))) |}
            [StoreRLock; StoreRUnlock;
             StdoutWrite b (snd (stdout_Write X b (world (final closing))))]
    | inr err =>
        writing =
          mkResult (Ret (Some (Wrap err "failed to marshal metrics into json")))
            (final closing) [StoreRLock; StoreRUnlock]
    end).
  { subst writing. destruct (final closing) as [m2 w2].
    unfold WriteMetrics, os_Stdout, json_Marshal_store. go_eval.
    destruct (json_MarshalIndent X w2) as [b|err]; [|reflexivity].
    destruct (stdout_Write X b w2) as [w3 wr]. reflexivity. }
  assert (Ew : WriteMetrics X (os_Stdout X) (final closing) = writing)
    by reflexivity.
  assert (Ec : Close X (final tailing) = closing) by reflexivity.
  clearbody writing. clearbody closing.
  remember (Run X _) as r eqn:E.
  unfold Run in E. unfold bind at 1 in E. cbn [get_server srv] in E.
  rewrite Hcomp in E. unfold bind at 1 in E. fold tailing in E.
  clearbody tailing. destruct tailing as [o1 [m1 w1] ev1].
  cbn [outcome final events srv] in *. subst m1.
  assert (S1 : forall ev, In ev ev1 ->
                is_stdout ev = false /\ is_serving ev = false)
    by (intros ev H; apply is_silent_split, Hsil, H).
  assert (Hout12 : forall ev, In ev (ev1 ++ events closing) ->
                     is_stdout ev = false).
  { intros ev H. rewrite in_app_iff in H. destruct H as [H|H].
    - apply (S1 ev H).
    - apply (Hquiet ev H). }
  assert (Htail : Server.t m <> None ->
            returned (mkResult o1 {| srv := m; world := w1 |} ev1) = true /\
            tail_patterns ev1 = Server.logPathPatterns m).
  { intros Hne. destruct (Hall Hne) as [Ho Hp]. unfold returned. cbn.
    rewrite Ho. split; [reflexivity | exact Hp]. }
  assert (Hwait : returned closing = true ->
            (In RecvVMsDone (events closing) <->
             once_done {| srv := m; world := w0 |} = false /\
             Server.l m <> None)).
  { intros Hr. split.
    - intros H. destruct (Honly H) as [Hd Hl]. split; assumption.
    - intros [Hd Hl]. apply Hwaits; assumption. }
  clear Hwaits Honly Hall.
  destruct Hout as [-> | [_ ->]].
  - bind_eval_in E. rewrite Hone in E. bind_eval_in E. rewrite Ec in E.
    destruct closing as [o2 st2 ev2]. cbn [outcome final events] in *.
    destruct o2 as [a2| |msg|code].
    + rewrite (Hnil a2 eq_refl) in E. rewrite Ew in E.
      destruct (json_MarshalIndent X (world st2)) as [b|err].
      * destruct (stdout_Write X b (world st2)) as [w3 wr].
        cbn [fst snd] in Hwr. subst writing.
        destruct wr; bind_eval_in E; subst r;
          cbn [outcome final events returned app]; rewrite ?app_nil_r.
        all: split; [reflexivity|]; (split; [exact Htail|]);
          (split; [exact Hwait|]);
          (split; [intros _ _; split; reflexivity|]);
          (split; [exact Hout12|]); split;
          [| intros _; split; reflexivity ].
        all: intros ev H; rewrite !in_app_iff in H; cbn [In] in H;
          destruct H as [H|[H|H]];
          [ apply (S1 ev H) | apply (Hquiet ev H)
          | split_in H; subst ev; reflexivity ].
      * subst writing. bind_eval_in E. subst r.
        cbn [outcome final events returned app]. rewrite ?app_nil_r.
        split; [reflexivity|]. split; [exact Htail|].
        split; [exact Hwait|].
        split; [intros _ _; split; reflexivity|].
        split; [exact Hout12|]. split; [| intros _; split; reflexivity ].
        intros ev H. rewrite !in_app_iff in H. cbn [In] in H.
        destruct H as [H|[H|H]];
          [ apply (S1 ev H) | apply (Hquiet ev H)
          | split_in H; subst ev; reflexivity ].
    + subst r. cbn [outcome final events returned app].
      rewrite !app_nil_r.
      split; [reflexivity|]. split; [exact Htail|]. split; [exact Hwait|].
      split; [intros _ H; discriminate H|].
      split; [exact Hout12|]. split.
      * intros ev H. rewrite !in_app_iff in H. destruct H as [H|H].
        -- apply (S1 ev H).
        -- apply (Hquiet ev H).
      * intros H. discriminate H.
    + subst r. cbn [outcome final events returned app].
      rewrite !app_nil_r.
      split; [reflexivity|]. split; [exact Htail|]. split; [exact Hwait|].
      split; [intros _ H; discriminate H|].
      split; [exact Hout12|]. split.
      * intros ev H. rewrite !in_app_iff in H. destruct H as [H|H].
        -- apply (S1 ev H).
        -- apply (Hquiet ev H).
      * intros H. discriminate H.
    + subst r. cbn [outcome final events returned app].
      rewrite !app_nil_r.
      split; [reflexivity|]. split; [exact Htail|]. split; [exact Hwait|].
      split; [intros _ H; discriminate H|].
      split; [exact Hout12|]. split.
      * intros ev H. rewrite !in_app_iff in H. destruct H as [H|H].
        -- apply (S1 ev H).
        -- apply (Hquiet ev H).
      * intros H. discriminate H.
  - subst r. cbn [outcome final events returned app].
    rewrite !app_nil_r.
    split; [reflexivity|]. split; [exact Htail|]. split; [exact Hwait|].
    split; [intros H; discriminate H|].
    split; [exact Hout12|]. split.
    * intros ev H. apply (S1 ev H).
    * intros H. discriminate H.
Qed.

(** *** No way to [os.Exit] *)

Lemma no_exit_ret {A} (a : A) : no_exit (W:=W) (ret a).
Proof. intros st code H. discriminate H. Qed.

Lemma no_exit_bind_post {A B} (P : A -> Prop) (c : Go W A) (k : A -> Go W B) :
  (forall st a, outcome (c st) = Ret a -> P a) ->
  no_exit c -> (forall a, P a -> no_exit (k a)) -> no_exit (bind c k).
Proof.
  intros HP Hc Hk st code. unfold bind.
  specialize (HP st). specialize (Hc st).
  destruct (c st) as [[a| |msg|code'] st1 ev1]; cbn in *;
    try discriminate.
  - specialize (Hk a (HP a eq_refl) st1 code).
    destruct (k a st1) as [o st2 ev2]. exact Hk.
  - intros H. exact (Hc code' eq_refl).
Qed.

Lemma no_exit_bind {A B} (c : Go W A) (k : A -> Go W B) :
  no_exit c -> (forall a, no_exit (k a)) -> no_exit (bind c k).
Proof.
  intros Hc Hk. apply (@no_exit_bind_post A B (fun _ => True)); auto.
Qed.

Lemma no_exit_emit (ev : Event) : no_exit (W:=W) (emit ev).
Proof. intros st code H. discriminate H. Qed.

Lemma no_exit_glog sev format args : no_exit (W:=W) (glog sev format args).
Proof. apply no_exit_emit. Qed.

Lemma no_exit_panic {A} (msg : string) : no_exit (W:=W) (A:=A) (panic msg).
Proof. intros st code H. discriminate H. Qed.

Lemma no_exit_get_server : no_exit (W:=W) get_server.
Proof. intros st code H. discriminate H. Qed.

Lemma no_exit_update_server f : no_exit (W:=W) (update_server f).
Proof. intros st code H. discriminate H. Qed.

Lemma no_exit_call {A} (f : W -> W * A) (ev : A -> Event) : no_exit (call f ev).
Proof.
  intros st code. unfold call. destruct (f (world st)). intros H. discriminate H.
Qed.

Lemma no_exit_call_ (f : W -> W) (ev : Event) : no_exit (call_ f ev).
Proof. intros st code H. discriminate H. Qed.

Lemma no_exit_recv (f : W -> option W) (ev : Event) : no_exit (recv f ev).
Proof.
  intros st code. unfold recv. destruct (f (world st)); intros H; discriminate H.
Qed.

Lemma no_exit_close (c : Chan) : no_exit (W:=W) (close c).
Proof.
  intros st code. unfold close, bind, get_server, update_server, emit, panic.
  cbn. destruct (chan_of c (srv st)); cbn; intros H; discriminate H.
Qed.

Lemma no_exit_closeOnce_Do (f : Go W unit) : no_exit f -> no_exit (closeOnce_Do f).
Proof.
  intros Hf st code. unfold closeOnce_Do. specialize (Hf st).
  destruct (once_done st); [intros H; discriminate H|].
  destruct (f st) as [[[]| |msg|code'] st1 ev1]; cbn in *; try discriminate.
  intros _. exact (Hf code' eq_refl).
Qed.

Create HintDb no_exit.
#[local] Hint Resolve no_exit_ret no_exit_emit no_exit_glog no_exit_panic
  no_exit_get_server no_exit_update_server no_exit_call no_exit_call_
  no_exit_recv no_exit_close : no_exit.

(** Through sequences and case distinctions. *)
Ltac no_exit_tac :=
  repeat first
    [ solve [auto with no_exit]
    | apply no_exit_bind; [|intros ?]
    | apply no_exit_closeOnce_Do
    | match goal with
      | |- no_exit (match ?x with _ => _ end) => destruct x
      | |- no_exit (if ?b then _ else _) => destruct b
      end ].

Lemma no_exit_shutdown : no_exit (shutdown X).
Proof. unfold shutdown. no_exit_tac. Qed.

Lemma no_exit_Close : no_exit (Close X).
Proof. unfold Close. pose proof no_exit_shutdown. no_exit_tac. Qed.

Lemma no_exit_ready_cases : no_exit (ready_cases X).
Proof. intros st code H. discriminate H. Qed.

Lemma no_exit_select_ready ready : no_exit (select_ready X ready).
Proof. intros st code. destruct ready; intros H; discriminate H. Qed.

Lemma no_exit_WaitForShutdown : no_exit (WaitForShutdown X).
Proof.
  unfold WaitForShutdown. pose proof no_exit_Close.
  pose proof no_exit_ready_cases. pose proof no_exit_select_ready.
  no_exit_tac.
Qed.

Lemma no_exit_Serve : no_exit (Serve X).
Proof.
  unfold Serve, e_StartMetricPush. pose proof no_exit_WaitForShutdown.
  no_exit_tac.
Qed.

Lemma no_exit_WriteMetrics : no_exit (WriteMetrics X (os_Stdout X)).
Proof.
  unfold WriteMetrics, os_Stdout.
  assert (no_exit (json_Marshal_store X)) by (intros st code H; discriminate H).
  no_exit_tac.
Qed.

Lemma no_exit_StartTailing : no_exit (StartTailing X).
Proof.
  intros st code. pose proof (StartTailing_cases st) as H. cbv zeta in H.
  destruct H as (_ & [H | [_ H]] & _); rewrite H; discriminate.
Qed.

Lemma no_exit_Run : no_exit (Run X).
Proof.
  unfold Run, t_StartGcLoop.
  pose proof no_exit_Close. pose proof no_exit_Serve.
  pose proof no_exit_WriteMetrics.
  apply no_exit_bind; [auto with no_exit|]. intros m.
  destruct (Server.compileOnly m); [no_exit_tac|].
  apply (@no_exit_bind_post _ _ (fun a => a = None)).
  - intros st a Ha. pose proof (StartTailing_cases st) as Hc. cbv zeta in Hc.
    destruct Hc as (_ & [Hc | [_ Hc]] & _); congruence.
  - apply no_exit_StartTailing.
  - intros a ->. no_exit_tac.
Qed.

(** C9.  [StartTailing] never returns an error.  With a tailer it returns
    [nil] for every list of patterns and hands every pattern to
    [TailPattern], in order, whatever the earlier calls answered; each
    failure is logged as a warning.  As a consequence [Run] never takes the
    branch that leaves the process. *)
Theorem StartTailing_returns_nil (st : State W) :
  (Server.t (srv st) <> None ->
   outcome (StartTailing X st) = Ret None /\
   tail_patterns (events (StartTailing X st)) = Server.logPathPatterns (srv st)) /\
  (forall e, outcome (StartTailing X st) <> Ret (Some e)) /\
  (forall p e,
     In (TailPattern p (Some e)) (events (StartTailing X st)) ->
     In (Glog WARNING "%v" [e]) (events (StartTailing X st))) /\
  (forall code, outcome (Run X st) <> Exited code).
Proof.
  pose proof (StartTailing_cases st) as H. cbv zeta in H.
  destruct H as (_ & Hout & Hall & Hwarn & _).
  split; [exact Hall|]. split.
  - intros e. destruct Hout as [H | [_ H]]; rewrite H; discriminate.
  - split; [exact Hwarn|]. intros code. apply no_exit_Run.
Qed.

End RunProperties.

Section LoaderProperties.

Variable W : Type.
Variable X : External W.

Lemma In_append_if {A} (x o : A) (b : bool) (opts : list A) :
  In x (append_if b o opts) <-> In x opts \/ (b = true /\ x = o).
Proof.
  unfold append_if. destruct b.
  - rewrite in_app_iff. cbn. intuition congruence.
  - intuition congruence.
Qed.

Lemma append_nil_r (s : string) : String.append s "" = s.
Proof. induction s as [|c s IH]; cbn; [|rewrite IH]; reflexivity. Qed.

(** The message of the error that [initLoader] makes of the diagnostics. *)
Lemma compile_errors_message (errs : string) :
  Errorf (String.append "Compile encountered errors:" (String.append nl "%s"))
         [errs]
  = String.append "Compile encountered errors:" (String.append nl errs).
Proof. cbn. rewrite append_nil_r. reflexivity. Qed.

Ltac loader_eval_in E :=
  cbv beta iota zeta delta
    [bind get_server ret emit glog call call_ update_server
     outcome final events srv world
     Server.compileOnly Server.oneShot Server.dumpAst Server.dumpAstTypes
     Server.dumpBytecode Server.syslogUseCurrentYear Server.omitMetricSource
     Server.overrideLocation Server.programPath] in E.

(** [initLoader], step by step: the call of [vm.NewLoader], its error if
    any, else nothing more for an empty program path, else the initial load
    and the error made of its diagnostics. *)
Lemma initLoader_cases (st : State W) :
  exists opts r0 rest,
    events (initLoader X st)
      = NewLoader (Server.programPath (srv st)) opts r0 :: rest /\
    (In DumpAst opts <-> Server.dumpAst (srv st) = true) /\
    (In DumpAstTypes opts <-> Server.dumpAstTypes (srv st) = true) /\
    (In DumpBytecode opts <-> Server.dumpBytecode (srv st) = true) /\
    (In CompileOnly opts <-> Server.compileOnly (srv st) = true) /\
    match r0 with
    | Some e => outcome (initLoader X st) = Ret (Some e) /\ rest = []
    | None =>
        if String.eqb (Server.programPath (srv st)) "" then
          outcome (initLoader X st) = Ret None /\ rest = []
        else
          exists r1,
            rest = [LoadAllPrograms r1] /\
            outcome (initLoader X st) =
              Ret (match r1 with
                   | Some errs =>
                       Some (String.append "Compile encountered errors:"
                               (String.append nl errs))
                   | None => None
                   end)
    end.
Proof.
  destruct st as [m w0]. destruct m eqn:Hm.
  cbn [srv Server.programPath Server.dumpAst Server.dumpAstTypes
       Server.dumpBytecode Server.compileOnly].
  rewrite <- Hm. remember (initLoader X _) as r eqn:E. unfold initLoader in E.
  unfold bind at 1 in E. cbv beta iota zeta delta [get_server srv] in E.
  match type of E with
  | context [vm_NewLoader X _ ?o] => set (opts := o) in E
  end.
  exists opts.
  assert (Hopts :
            (In DumpAst opts <-> Server.dumpAst m = true) /\
            (In DumpAstTypes opts <-> Server.dumpAstTypes m = true) /\
            (In DumpBytecode opts <-> Server.dumpBytecode m = true) /\
            (In CompileOnly opts <-> Server.compileOnly m = true)).
  { subst opts.
    destruct (Server.overrideLocation m) as [loc|];
      rewrite ?in_app_iff, !In_append_if;
      destruct (Server.compileOnly m); rewrite ?In_append_if; cbn;
      intuition congruence. }
  clearbody opts. rewrite Hm in Hopts, E.
  cbn [Server.programPath Server.dumpAst Server.dumpAstTypes
       Server.dumpBytecode Server.compileOnly] in Hopts, E.
  rewrite <- Hm in E. clear Hm.
  repeat (progress loader_eval_in E || destruct_stuck_in E); subst r.
  all: rewrite ?compile_errors_message; cbn [events outcome app].
  all: destruct Hopts as (H1 & H2 & H3 & H4).
  all: do 2 eexists; split; [reflexivity|]; repeat (split; [assumption|]).
  all: first [ split; reflexivity | eexists; split; reflexivity ].
Qed.

(** When [initLoader] fails, [New] returns its error and no server. *)
Lemma New_initLoader_error (store : Store) (w : Watcher)
    (options : list (Go W (option error))) (w0 : W) (e : error) :
  let reached :=
    before_initLoader X options {| srv := new_server store w; world := w0 |} in
  outcome reached = Ret None ->
  outcome (initLoader X (final reached)) = Ret (Some e) ->
  outcome (New X store w options w0) = Ret (None, Some e).
Proof.
  unfold New, before_initLoader.
  cbv beta iota zeta delta [bind ret outcome final events].
  destruct (SetOption options _) as [[[e1|]| |msg|code] st1 ev1];
    try discriminate.
  destruct (initExporter X st1) as [[[e2|]| |msg|code] st2 ev2];
    try discriminate.
  intros _. destruct (initLoader X st2) as [[[e3|]| |msg|code] st3 ev3];
    try discriminate.
  intros H. injection H as ->. reflexivity.
Qed.

(** C4, as amended.  [initLoader] first calls [vm.NewLoader] and returns
    its error when it fails, whatever the program path.  After a successful
    [vm.NewLoader], an empty program path ends [initLoader] with [nil] and
    without any load; a non-empty one leads to one [LoadAllPrograms], and
    when that reports errors [initLoader] fails with the message
    [Compile encountered errors:], a line feed and the diagnostics.  [New],
    once it has reached [initLoader], returns the error of a failed
    [initLoader] together with a [nil] server. *)
Theorem initLoader_errors :
  (forall st : State W,
     exists opts r0 rest,
       events (initLoader X st)
         = NewLoader (Server.programPath (srv st)) opts r0 :: rest /\
       match r0 with
       | Some e => outcome (initLoader X st) = Ret (Some e) /\ rest = []
       | None =>
           if String.eqb (Server.programPath (srv st)) "" then
             outcome (initLoader X st) = Ret None /\ rest = []
           else
             exists r1,
               rest = [LoadAllPrograms r1] /\
               outcome (initLoader X st) =
                 Ret (match r1 with
                      | Some errs =>
                          Some (String.append "Compile encountered errors:"
                                  (String.append nl errs))
                      | None => None
                      end)
       end) /\
  (forall store w options w0 e,
     let reached :=
       before_initLoader X options
         {| srv := new_server store w; world := w0 |} in
     outcome reached = Ret None ->
     outcome (initLoader X (final reached)) = Ret (Some e) ->
     outcome (New X store w options w0) = Ret (None, Some e)).
Proof.
  split.
  - intros st.
    destruct (initLoader_cases st) as (opts & r0 & rest & He & _ & _ & _ & _ & Hc).
    exists opts, r0, rest. split; assumption.
  - exact New_initLoader_error.
Qed.

(** C6, as amended.  [initLoader] passes [DumpAst], [DumpAstTypes] and
    [DumpBytecode] to the loader exactly when the flag of the same name is
    set, whether [compileOnly] is set or not; [CompileOnly] itself is passed
    exactly when [compileOnly] is set. *)
Theorem initLoader_dump_options (st : State W) :
  exists opts r0 rest,
    events (initLoader X st)
      = NewLoader (Server.programPath (srv st)) opts r0 :: rest /\
    (In DumpAst opts <-> Server.dumpAst (srv st) = true) /\
    (In DumpAstTypes opts <-> Server.dumpAstTypes (srv st) = true) /\
    (In DumpBytecode opts <-> Server.dumpBytecode (srv st) = true) /\
    (In CompileOnly opts <-> Server.compileOnly (srv st) = true).
Proof.
  destruct (initLoader_cases st)
    as (opts & r0 & rest & He & H1 & H2 & H3 & H4 & _).
  exists opts, r0, rest. repeat split; try assumption.
  all: first [apply H1 | apply H2 | apply H3 | apply H4].
Qed.

End LoaderProperties.

Section QuitProperties.

Variable W : Type.

(** C10.  A request whose method is not [POST] gets the header
    [Allow: POST] and the status 405, and [handleQuit] returns without any
    event and with the server and the world as they were.  The [webquit]
    channel is closed, and its state changed, only by a [POST]; a [POST]
    on the open channel answers [Exiting...] and closes it. *)
Theorem handleQuit_only_POST (st : State W) (w : ResponseWriter) (r : Request) :
  (Method r <> "POST" ->
   handleQuit w r st =
     mkResult (Ret (WriteHeader StatusMethodNotAllowed
                      (Header_Add "Allow" "POST" w))) st [] /\
   (rw_status w = None ->
    rw_status (WriteHeader StatusMethodNotAllowed (Header_Add "Allow" "POST" w))
      = Some 405) /\
   In ("Allow", "POST")
      (rw_header (WriteHeader StatusMethodNotAllowed
                    (Header_Add "Allow" "POST" w)))) /\
  (In (ChanClose ch_webquit) (events (handleQuit w r st)) -> Method r = "POST") /\
  (Server.webquit (srv (final (handleQuit w r st))) <> Server.webquit (srv st) ->
   Method r = "POST") /\
  (Method r = "POST" -> Server.webquit (srv st) = ChOpen ->
   outcome (handleQuit w r st) = Ret (rw_Write "Exiting..." w) /\
   Server.webquit (srv (final (handleQuit w r st))) = ChClosed /\
   events (handleQuit w r st) = [ChanClose ch_webquit]).
Proof.
  unfold handleQuit.
  destruct (String.eqb_spec (Method r) "POST") as [Heq | Hne]; cbn [negb].
  - split; [intros H; contradiction|].
    split; [intros _; exact Heq|]. split; [intros _; exact Heq|].
    intros _ Hopen. destruct st as [m w0]. destruct m. cbn in Hopen. subst.
    go_eval. repeat split.
  - split.
    + intros _. split; [reflexivity|]. split.
      * intros Hs. unfold WriteHeader, Header_Add. cbn. rewrite Hs. reflexivity.
      * unfold WriteHeader, Header_Add. cbn.
        destruct (rw_status w); cbn; apply in_or_app; right; left; reflexivity.
    + split; [intros H; contradiction|].
      split; [intros H; exfalso; apply H; reflexivity|].
      intros H. contradiction.
Qed.

End QuitProperties.

(** * The properties on concrete servers *)

Lemma oneshot_state_well_formed : well_formed (srv oneshot_state).
Proof. intros _. split; [reflexivity | discriminate]. Qed.

(** The complete one-shot server in a calm world: the order of C1. *)
Lemma Close_order_witness :
  once_done oneshot_state = false /\
  well_formed (srv oneshot_state) /\
  exists r1,
    (outcome (Close (scripted calm) oneshot_state) = Blocked /\
     Server.l (srv oneshot_state) <> None /\
     steps (events (Close (scripted calm) oneshot_state)) =
       [ChanClose ch_closeQuit; ingestion_step (srv oneshot_state) r1])
    \/
    (outcome (Close (scripted calm) oneshot_state) = Ret None /\
     exists r2,
       steps (events (Close (scripted calm) oneshot_state)) =
         [ChanClose ch_closeQuit; ingestion_step (srv oneshot_state) r1]
         ++ match Server.l (srv oneshot_state) with
            | Some _ => [RecvVMsDone]
            | None => []
            end
         ++ match Server.h (srv oneshot_state) with
            | Some _ => [HTTPShutdown shutdown_ctx r2; CtxCancel]
            | None => []
            end).
Proof.
  split; [reflexivity|]. split; [exact oneshot_state_well_formed|].
  apply (@Close_order unit (scripted calm) oneshot_state).
  - reflexivity.
  - exact oneshot_state_well_formed.
Defined.

(** A server without loader: [Close] performs the shutdown and shuts the
    HTTP server down without having waited for [VMsDone]. *)
Lemma Close_order_counterexample :
  once_done bare_state = false /\
  In (HTTPShutdown shutdown_ctx None) (events (Close (scripted calm) bare_state)) /\
  ~ In RecvVMsDone (events (Close (scripted calm) bare_state)) /\
  ~ waits_before_http (srv bare_state) (events (Close (scripted calm) bare_state)).
Proof.
  assert (Hno : ~ In RecvVMsDone (events (Close (scripted calm) bare_state))).
  { vm_compute. intros H. split_in H; discriminate H. }
  split; [reflexivity|]. split; [vm_compute; auto 20|]. split; [exact Hno|].
  intros (a & b & c & d & e & r & ctx & r' & H). apply Hno. rewrite H.
  apply in_or_app. right. right. apply in_or_app. right. right.
  apply in_or_app. right. left. reflexivity.
Qed.

(** One-shot run in a stormy world: both patterns are handed to the
    tailer, the shutdown waits for the loader, and the metrics are
    written after it. *)
Lemma Run_oneShot_witness :
  Server.oneShot (srv oneshot_state) = true /\
  Server.compileOnly (srv oneshot_state) = false /\
  let tailing := StartTailing (scripted stormy) oneshot_state in
  let closing := Close (scripted stormy) (final tailing) in
  tail_patterns (events tailing) = ["/var/log/syslog"; "/var/log/missing"] /\
  In RecvVMsDone (events closing) /\
  events (Run (scripted stormy) oneshot_state) =
    events tailing ++ events closing
    ++ [Printf "Metrics store:"; StoreRLock; StoreRUnlock;
        StdoutWrite "[]" None] /\
  outcome (Run (scripted stormy) oneshot_state) = Ret None.
Proof.
  split; [reflexivity|]. split; [reflexivity|]. intros tailing closing.
  assert (Ht : Server.t (srv oneshot_state) <> None) by discriminate.
  assert (Hl : Server.l (srv oneshot_state) <> None) by discriminate.
  destruct (@Run_oneShot unit (scripted stormy) oneshot_state eq_refl eq_refl)
    as (Hev & Htail & Hwait & Hwrite & _).
  destruct (Htail Ht) as [_ Hp].
  destruct (Hwrite eq_refl eq_refl) as [Hw Ho].
  split; [exact Hp|].
  split; [exact (proj2 (Hwait eq_refl) (conj eq_refl Hl))|].
  split; [|exact Ho].
  rewrite Hev, Hw. reflexivity.
Defined.

(** A one-shot server without loader: [Run] writes the metrics and
    returns, and nothing has waited for [VMsDone]. *)
Lemma Run_oneShot_counterexample :
  Server.oneShot (srv loaderless_state) = true /\
  Server.compileOnly (srv loaderless_state) = false /\
  outcome (Run (scripted calm) loaderless_state) = Ret None /\
  In (StdoutWrite "[]" None) (events (Run (scripted calm) loaderless_state)) /\
  ~ In RecvVMsDone (events (Run (scripted calm) loaderless_state)) /\
  ~ writes_after_VMsDone (events (Run (scripted calm) loaderless_state)).
Proof.
  assert (Hno : ~ In RecvVMsDone
                    (events (Run (scripted calm) loaderless_state))).
  { vm_compute. intros H. split_in H; discriminate H. }
  split; [reflexivity|]. split; [reflexivity|]. split; [reflexivity|].
  split; [vm_compute; auto 20|]. split; [exact Hno|].
  intros H.
  assert (Hsplit : exists before,
             events (Run (scripted calm) loaderless_state)
               = before ++ StdoutWrite "[]" None :: []).
  { eexists (removelast (events (Run (scripted calm) loaderless_state))).
    vm_compute. reflexivity. }
  destruct Hsplit as [before Hb].
  apply Hno. rewrite Hb. apply in_or_app. left. exact (H _ _ _ _ Hb).
Qed.

Lemma two_callers_reachable : reachable (scripted calm) oneshot_state two_callers.
Proof.
  eapply reach_step; [eapply reach_step; [eapply reach_step;
    [eapply reach_step; [eapply reach_step; [apply reach_start|]|]|]|]|].
  - apply (@step_slow unit (scripted calm) 0%nat); reflexivity.
  - apply (@step_lock unit (scripted calm) 0%nat); reflexivity.
  - apply (@step_run unit (scripted calm) 0%nat); reflexivity.
  - apply (@step_unlock unit (scripted calm) 0%nat); reflexivity.
  - apply (@step_fast unit (scripted calm) 1%nat); reflexivity.
Qed.

(** Three calls in a row, a call on the closed server, and two concurrent
    callers. *)
Lemma Close_idempotent_witness :
  times 2 (Close (scripted calm)) oneshot_state
    = Close (scripted calm) oneshot_state /\
  once_done (final (Close (scripted calm) oneshot_state)) = true /\
  Close (scripted calm) (final (Close (scripted calm) oneshot_state))
    = mkResult (Ret None) (final (Close (scripted calm) oneshot_state)) [] /\
  reachable (scripted calm) oneshot_state two_callers /\
  pcs two_callers 1%nat = Returned /\
  (closeQuit_closings (history two_callers) <= 1)%nat /\
  history two_callers = events (Close (scripted calm) oneshot_state) /\
  shared two_callers = final (Close (scripted calm) oneshot_state).
Proof.
  destruct (@Close_idempotent unit (scripted calm)) as (Hseq & Hnoop & Hconc).
  split; [apply Hseq|]. split; [reflexivity|].
  split; [apply Hnoop; reflexivity|].
  split; [exact two_callers_reachable|]. split; [reflexivity|].
  destruct (Hconc oneshot_state two_callers two_callers_reachable)
    as (_ & Hcount & Hret).
  split; [exact Hcount|]. apply (Hret 1%nat). reflexivity.
Defined.

(** A program that does not compile: [New] returns the diagnostics and no
    server. *)
Lemma initLoader_errors_witness :
  let reached :=
    before_initLoader (scripted stormy) [ProgramPath "/etc/mtail"]
      {| srv := new_server MetricsStore LogWatcher; world := tt |} in
  outcome reached = Ret None /\
  outcome (initLoader (scripted stormy) (final reached)) =
    Ret (Some (String.append "Compile encountered errors:"
                 (String.append nl "prog.mtail:1:1: syntax error"))) /\
  outcome (New (scripted stormy) MetricsStore LogWatcher
             [ProgramPath "/etc/mtail"] tt) =
    Ret (None,
         Some (String.append "Compile encountered errors:"
                 (String.append nl "prog.mtail:1:1: syntax error"))).
Proof.
  intros reached.
  assert (H1 : outcome reached = Ret None) by reflexivity.
  assert (H2 : outcome (initLoader (scripted stormy) (final reached)) =
               Ret (Some (String.append "Compile encountered errors:"
                            (String.append nl "prog.mtail:1:1: syntax error"))))
    by reflexivity.
  split; [exact H1|]. split; [exact H2|].
  exact (proj2 (@initLoader_errors unit (scripted stormy))
               MetricsStore LogWatcher [ProgramPath "/etc/mtail"] tt _ H1 H2).
Defined.

(** An empty program path and a [vm.NewLoader] that fails: no load is
    attempted, and [initLoader] fails. *)
Lemma initLoader_errors_counterexample :
  Server.programPath (srv bare_state) = "" /\
  events (initLoader (scripted no_loader) bare_state) =
    [NewLoader "" [] (Some "loader needs a store and lines")] /\
  outcome (initLoader (scripted no_loader) bare_state) =
    Ret (Some "loader needs a store and lines") /\
  ~ empty_path_succeeds (scripted no_loader) bare_state.
Proof.
  split; [reflexivity|]. split; [reflexivity|]. split; [reflexivity|].
  intros H. specialize (H eq_refl). discriminate H.
Qed.

(** Compile-only. *)
Lemma Run_compileOnly_witness :
  Server.compileOnly (srv compile_state) = true /\
  Run (scripted calm) compile_state =
    mkResult (Ret None) compile_state
             [Glog INFO "compile-only is set, exiting" []].
Proof.
  split; [reflexivity|].
  apply (@Run_compileOnly unit (scripted calm) compile_state). reflexivity.
Defined.

(** [dumpAst] without [compileOnly]: the loader gets [DumpAst]. *)
Lemma initLoader_dump_options_counterexample :
  Server.compileOnly (srv dump_state) = false /\
  events (initLoader (scripted calm) dump_state) = [NewLoader "" [DumpAst] None] /\
  ~ dumps_only_when_compiling (scripted calm) dump_state.
Proof.
  split; [reflexivity|]. split; [reflexivity|].
  intros H. specialize (H "" [DumpAst] None).
  assert (Hc : Server.compileOnly (srv dump_state) = true).
  { apply H.
    - left. reflexivity.
    - left. left. reflexivity. }
  discriminate Hc.
Qed.

(** The HTTP server needs six seconds to drain: [Shutdown] gives up at the
    end of the five seconds of its context, and [Close] logs and returns. *)
Lemma Close_http_timeout_witness :
  In (HTTPShutdown shutdown_ctx (Some "context deadline exceeded"))
     (events (Close (scripted stormy) oneshot_state)) /\
  ctx_timeout shutdown_ctx = Some (5 * Second) /\
  5 * Second = 5000000000 /\
  outcome (Close (scripted stormy) oneshot_state) = Ret None /\
  exists before,
    events (Close (scripted stormy) oneshot_state) =
      before ++ HTTPShutdown shutdown_ctx (Some "context deadline exceeded")
             :: [Glog ERROR "%v" ["context deadline exceeded"]]
             ++ [CtxCancel; Glog INFO "END OF LINE" []].
Proof.
  assert (H : In (HTTPShutdown shutdown_ctx (Some "context deadline exceeded"))
                 (events (Close (scripted stormy) oneshot_state)))
    by (vm_compute; auto 20).
  split; [exact H|].
  exact (@Close_http_timeout unit (scripted stormy) oneshot_state _ _ H).
Defined.

(** The tailer's [Close] and the HTTP server's [Shutdown] both fail: both
    errors are logged and [Close] returns [nil]. *)
Lemma Close_returns_nil_witness :
  well_formed (srv oneshot_state) /\
  wait_ends (scripted stormy) oneshot_state /\
  outcome (Close (scripted stormy) oneshot_state) = Ret None /\
  In (TailerClose (Some "watcher closed"))
     (events (Close (scripted stormy) oneshot_state)) /\
  In (Glog INFO "tailer close failed: %s" ["watcher closed"])
     (events (Close (scripted stormy) oneshot_state)) /\
  In (Glog ERROR "%v" ["context deadline exceeded"])
     (events (Close (scripted stormy) oneshot_state)).
Proof.
  assert (Hw : wait_ends (scripted stormy) oneshot_state)
    by (right; right; discriminate).
  assert (Ht : In (TailerClose (Some "watcher closed"))
                  (events (Close (scripted stormy) oneshot_state)))
    by (vm_compute; auto 20).
  assert (Hh : In (HTTPShutdown shutdown_ctx (Some "context deadline exceeded"))
                  (events (Close (scripted stormy) oneshot_state)))
    by (vm_compute; auto 20).
  destruct (@Close_returns_nil unit (scripted stormy) oneshot_state)
    as (_ & _ & Hnil & Htail & Hhttp).
  split; [exact oneshot_state_well_formed|]. split; [exact Hw|].
  split; [exact (Hnil oneshot_state_well_formed Hw)|].
  split; [exact Ht|]. split; [exact (Htail _ Ht)|].
  exact (proj1 (Hhttp _ _ Hh)).
Defined.

(** The loader never signals: [Close] on the complete server stays
    blocked.  [closeQuit] closed although the shutdown has not run:
    [Close] panics. *)
Lemma Close_returns_nil_counterexample :
  well_formed (srv oneshot_state) /\
  outcome (Close (scripted hung) oneshot_state) = Blocked /\
  ~ returns_nil (scripted hung) oneshot_state /\
  outcome (Close (scripted calm) half_closed_state)
    = Panic "close of closed channel" /\
  ~ returns_nil (scripted calm) half_closed_state.
Proof.
  split; [exact oneshot_state_well_formed|]. split; [reflexivity|].
  split; [intros H; discriminate H|]. split; [reflexivity|].
  intros H. discriminate H.
Qed.

(** One of two patterns fails: both are tried, the failure is a warning. *)
Lemma StartTailing_returns_nil_witness :
  Server.t (srv oneshot_state) <> None /\
  outcome (StartTailing (scripted stormy) oneshot_state) = Ret None /\
  tail_patterns (events (StartTailing (scripted stormy) oneshot_state))
    = ["/var/log/syslog"; "/var/log/missing"] /\
  In (TailPattern "/var/log/missing" (Some "no such file"))
     (events (StartTailing (scripted stormy) oneshot_state)) /\
  In (Glog WARNING "%v" ["no such file"])
     (events (StartTailing (scripted stormy) oneshot_state)).
Proof.
  assert (Ht : Server.t (srv oneshot_state) <> None) by discriminate.
  assert (Hp : In (TailPattern "/var/log/missing" (Some "no such file"))
                  (events (StartTailing (scripted stormy) oneshot_state)))
    by (vm_compute; auto 20).
  destruct (@StartTailing_returns_nil unit (scripted stormy) oneshot_state)
    as (Hall & _ & Hwarn & _).
  split; [exact Ht|]. destruct (Hall Ht) as [Ho Hps].
  split; [exact Ho|]. split; [exact Hps|]. split; [exact Hp|].
  exact (Hwarn _ _ Hp).
Defined.

(** A [GET] on the quit endpoint. *)
Lemma handleQuit_only_POST_witness :
  Method get_request <> "POST" /\
  handleQuit fresh_writer get_request oneshot_state =
    mkResult (Ret {| rw_header := [("Allow", "POST")];
                     rw_status := Some 405;
                     rw_body := "" |}) oneshot_state [].
Proof.
  assert (Hm : Method get_request <> "POST") by discriminate.
  split; [exact Hm|].
  exact (proj1 (proj1 (@handleQuit_only_POST unit oneshot_state fresh_writer
                         get_request) Hm)).
Defined.

(** * More of the server: construction, serving, the status page *)

Section Sequencing.

Variable W : Type.

(** The laws of sequencing. *)
Lemma bind_ret_l {A B} (a : A) (k : A -> Go W B) (st : State W) :
  bind (ret a) k st = k a st.
Proof. unfold bind, ret. destruct (k a st). reflexivity. Qed.

Lemma bind_assoc {A B C} (c : Go W A) (k : A -> Go W B) (k' : B -> Go W C)
    (st : State W) :
  bind (bind c k) k' st = bind c (fun a => bind (k a) k') st.
Proof.
  unfold bind. destruct (c st) as [[a| |msg|code] st1 ev1]; try reflexivity.
  destruct (k a st1) as [[b| |msg|code] st2 ev2]; try reflexivity.
  destruct (k' b st2) as [o st3 ev3]. rewrite app_assoc. reflexivity.
Qed.

Lemma bind_ext {A B} (c : Go W A) (k k' : A -> Go W B) (st : State W) :
  (forall a st1, k a st1 = k' a st1) -> bind c k st = bind c k' st.
Proof.
  intros H. unfold bind. destruct (c st) as [[a| |msg|code] st1 ev1];
    try reflexivity.
  rewrite H. reflexivity.
Qed.

(** The options of two lists, one list after the other. *)
Lemma SetOption_app (xs ys : list (Go W (option error))) (st : State W) :
  SetOption (xs ++ ys) st =
    bind (SetOption xs)
         (fun err => match err with
                     | Some e => ret (Some e)
                     | None => SetOption ys
                     end) st.
Proof.
  revert st. induction xs as [|x xs IH]; intros st.
  - cbn [app SetOption]. rewrite bind_ret_l. reflexivity.
  - cbn [app SetOption]. rewrite bind_assoc. apply bind_ext.
    intros [e|] st1.
    + rewrite bind_ret_l. reflexivity.
    + apply IH.
Qed.

(** X1.  [SetOption] stops at the first option that returns an error: when
    the options [xs] have all returned [nil] and the next option fails with
    [e], [SetOption] returns [e], the server and the world are as that
    option left them, and none of the options after it has run, whatever
    they are. *)
Theorem SetOption_first_error
    (xs ys : list (Go W (option error))) (o : Go W (option error))
    (e : error) (st : State W) :
  outcome (SetOption xs st) = Ret None ->
  outcome (o (final (SetOption xs st))) = Ret (Some e) ->
  SetOption (xs ++ o :: ys) st =
    mkResult (Ret (Some e))
             (final (o (final (SetOption xs st))))
             (events (SetOption xs st)
              ++ events (o (final (SetOption xs st)))).
Proof.
  intros Hxs Ho. rewrite SetOption_app. unfold bind at 1.
  destruct (SetOption xs st) as [o1 st1 ev1]. cbn in Hxs, Ho |- *. subst o1.
  cbn [SetOption]. unfold bind.
  destruct (o st1) as [o2 st2 ev2]. cbn in Ho |- *. subst o2.
  cbn. rewrite app_nil_r. reflexivity.
Qed.

End Sequencing.

(** Evaluation of the constructors of [New]. *)
Ltac init_eval_in E :=
  cbv beta iota zeta delta
    [bind get_server ret emit glog call call_ update_server
     outcome final events srv world] in E.

Ltac init_run E := repeat (progress init_eval_in E || destruct_stuck_in E).

Section Construction.

Variable W : Type.
Variable X : External W.

(** [initExporter]: one call of [exporter.New]; its error and a [nil]
    exporter, or the exporter and the registry with its five collectors. *)
Lemma initExporter_cases (st : State W) :
  exists opts r,
    events (initExporter X st) = [ExporterNew opts r] /\
    (In OmitProgLabel opts <-> Server.omitProgLabel (srv st) = true) /\
    (In EmitTimestamp opts <-> Server.emitMetricTimestamp (srv st) = true) /\
    match r with
    | Some e =>
        outcome (initExporter X st) = Ret (Some e) /\
        srv (final (initExporter X st)) = Server.set_e None (srv st)
    | None =>
        outcome (initExporter X st) = Ret None /\
        srv (final (initExporter X st)) =
          Server.set_reg
            (Some ["exporter"; "go"; "process"; "mtail_expvar";
                   "mtail_build_info"])
            (Server.set_e (Some {| exporter_opts := opts |}) (srv st))
    end.
Proof.
  destruct st as [m w0]. cbn [srv].
  remember (initExporter X _) as r eqn:E. unfold initExporter in E.
  unfold bind at 1 in E. cbv beta iota zeta delta [get_server srv] in E.
  match type of E with
  | context [exporter_New X ?o] => set (opts := o) in E
  end.
  exists opts.
  assert (Hopts :
            (In OmitProgLabel opts <-> Server.omitProgLabel m = true) /\
            (In EmitTimestamp opts <-> Server.emitMetricTimestamp m = true)).
  { subst opts. rewrite !In_append_if. cbn. intuition congruence. }
  clearbody opts. destruct Hopts as [H1 H2].
  init_eval_in E. destruct (exporter_New X opts w0) as [w1 [e|]];
    init_eval_in E; subst r; cbn [events outcome final srv app].
  - exists (Some e). repeat split; try apply H1; try apply H2.
  - exists None. repeat split; try apply H1; try apply H2.
Qed.

(** [initTailer]: one call of [tailer.New], with [OneShot] exactly in
    one-shot mode. *)
Lemma initTailer_cases (st : State W) :
  exists opts r,
    events (initTailer X st) = [TailerNew opts r] /\
    (In OneShot opts <-> Server.oneShot (srv st) = true) /\
    match r with
    | Some e =>
        outcome (initTailer X st) = Ret (Some e) /\
        srv (final (initTailer X st)) = Server.set_t None (srv st)
    | None =>
        outcome (initTailer X st) = Ret None /\
        srv (final (initTailer X st)) =
          Server.set_t (Some {| tailer_opts := opts |}) (srv st)
    end.
Proof.
  destruct st as [m w0]. cbn [srv].
  remember (initTailer X _) as r eqn:E. unfold initTailer in E.
  unfold bind at 1 in E. cbv beta iota zeta delta [get_server srv] in E.
  match type of E with
  | context [tailer_New X ?o] => set (opts := o) in E
  end.
  exists opts.
  assert (Hopts : In OneShot opts <-> Server.oneShot m = true).
  { subst opts. rewrite In_append_if. cbn. intuition congruence. }
  clearbody opts.
  init_eval_in E. destruct (tailer_New X opts w0) as [w1 [e|]];
    init_eval_in E; subst r; cbn [events outcome final srv app].
  - exists (Some e). repeat split; apply Hopts.
  - exists None. repeat split; apply Hopts.
Qed.

(** [initLoader] with the server it leaves and the options that depend on
    the other settings. *)
Lemma initLoader_full (st : State W) :
  exists opts r0 rest,
    events (initLoader X st)
      = NewLoader (Server.programPath (srv st)) opts r0 :: rest /\
    ((In ErrorsAbort opts <->
      Server.compileOnly (srv st) = true /\ Server.oneShot (srv st) = true) /\
     (In SyslogUseCurrentYear opts <->
      Server.syslogUseCurrentYear (srv st) = true) /\
     (In OmitMetricSource opts <-> Server.omitMetricSource (srv st) = true) /\
     (forall loc, In (OverrideLocation loc) opts <->
                  Server.overrideLocation (srv st) = Some loc)) /\
    srv (final (initLoader X st)) =
      Server.set_l
        match r0 with
        | Some _ => None
        | None => Some {| loader_programPath := Server.programPath (srv st);
                          loader_opts := opts |}
        end (srv st) /\
    match r0 with
    | Some e => outcome (initLoader X st) = Ret (Some e) /\ rest = []
    | None =>
        if String.eqb (Server.programPath (srv st)) "" then
          outcome (initLoader X st) = Ret None /\ rest = []
        else
          exists r1,
            rest = [LoadAllPrograms r1] /\
            outcome (initLoader X st) =
              Ret (match r1 with
                   | Some errs =>
                       Some (String.append "Compile encountered errors:"
                               (String.append nl errs))
                   | None => None
                   end)
    end.
Proof.
  destruct st as [m w0]. cbn [srv].
  remember (initLoader X _) as r eqn:E. unfold initLoader in E.
  unfold bind at 1 in E. cbv beta iota zeta delta [get_server srv] in E.
  match type of E with
  | context [vm_NewLoader X _ ?o] => set (opts := o) in E
  end.
  exists opts.
  assert (Hopts :
     (In ErrorsAbort opts <->
      Server.compileOnly m = true /\ Server.oneShot m = true) /\
     (In SyslogUseCurrentYear opts <-> Server.syslogUseCurrentYear m = true) /\
     (In OmitMetricSource opts <-> Server.omitMetricSource m = true) /\
     (forall loc, In (OverrideLocation loc) opts <->
                  Server.overrideLocation m = Some loc)).
  { subst opts. split; [|split; [|split; [|intros loc]]].
    all: destruct (Server.overrideLocation m) as [loc0|];
      rewrite ?in_app_iff, !In_append_if;
      destruct (Server.compileOnly m); rewrite ?In_append_if; cbn;
      intuition congruence. }
  clearbody opts.
  set (p := Server.programPath m) in *.
  init_eval_in E.
  destruct (vm_NewLoader X p opts w0) as [w1 [e|]]; init_eval_in E.
  - subst r. exists (Some e), []. cbn [events outcome final srv app].
    split; [reflexivity|]. split; [exact Hopts|]. repeat split.
  - destruct (String.eqb p "") eqn:Hp; init_eval_in E.
    + subst r. exists None, []. cbn [events outcome final srv app].
      split; [reflexivity|]. split; [exact Hopts|]. repeat split.
    + destruct (loader_LoadAllPrograms X w1) as [w2 r1]. exists None.
      destruct r1 as [es|]; init_eval_in E; subst r;
        cbn [events outcome final srv app];
        eexists; (split; [reflexivity|]); (split; [exact Hopts|]);
        (split; [reflexivity|]); eexists; (split; [reflexivity|]).
      * rewrite compile_errors_message. reflexivity.
      * reflexivity.
Qed.

(** [New] after options that have all returned [nil]: the three
    constructors in their order, up to the first failure, and the server
    when there is none. *)
Lemma New_after_options (store : Store) (w : Watcher)
    (options : list (Go W (option error))) (w0 : W) :
  let r0 := SetOption options {| srv := new_server store w; world := w0 |} in
  let r := New X store w options w0 in
  outcome r0 = Ret None ->
  exists evs,
    events r = events r0 ++ evs /\
    init_trace evs (outcome r) /\
    forall s, outcome r = Ret (Some s, None) ->
      s = srv (final r) /\
      exists eo lo to,
        s = Server.set_t (Some {| tailer_opts := to |})
              (Server.set_l
                 (Some {| loader_programPath :=
                            Server.programPath (srv (final r0));
                          loader_opts := lo |})
                 (Server.set_reg
                    (Some ["exporter"; "go"; "process"; "mtail_expvar";
                           "mtail_build_info"])
                    (Server.set_e (Some {| exporter_opts := eo |})
                                  (srv (final r0))))) /\
        (In OneShot to <-> Server.oneShot (srv (final r0)) = true).
Proof.
  intros r0 r Ho. subst r.
  remember (New X store w options w0) as r eqn:E.
  unfold New in E. unfold bind at 1 in E. fold r0 in E. clearbody r0.
  destruct r0 as [o1 st1 ev1]. cbn [outcome final events] in *. subst o1.
  (* the exporter *)
  unfold bind at 1 in E.
  destruct (initExporter_cases st1) as (eo & re & Hev2 & _ & _ & Hc2).
  destruct (initExporter X st1) as [o2 st2 ev2].
  cbn [outcome final events] in *. subst ev2.
  destruct re as [e|]; destruct Hc2 as [-> Hs2].
  { init_eval_in E. subst r. cbn [outcome final events].
    eexists. split; [reflexivity|]. split; [constructor|].
    intros s H. discriminate H. }
  (* the loader *)
  unfold bind at 1 in E.
  destruct (initLoader_full st2) as (lo & rl & rest & Hev3 & _ & Hs3 & Hc3).
  destruct (initLoader X st2) as [o3 st3 ev3].
  cbn [outcome final events] in *. subst ev3.
  assert (Hp2 : Server.programPath (srv st2) = Server.programPath (srv st1))
    by (rewrite Hs2; destruct (srv st1); reflexivity).
  rewrite Hp2 in *.
  destruct rl as [e|].
  { destruct Hc3 as [-> ->]. init_eval_in E. subst r.
    cbn [outcome final events].
    eexists. split; [reflexivity|]. split; [constructor|].
    intros s H. discriminate H. }
  assert (Hload :
            (exists es,
               Server.programPath (srv st1) <> "" /\
               rest = [LoadAllPrograms (Some es)] /\
               o3 = Ret (Some (String.append "Compile encountered errors:"
                                 (String.append nl es)))) \/
            (o3 = Ret None /\
             if String.eqb (Server.programPath (srv st1)) ""
             then rest = [] else rest = [LoadAllPrograms None])).
  { destruct (String.eqb_spec (Server.programPath (srv st1)) "") as [Hp|Hp].
    - destruct Hc3 as [-> ->]. right. split; reflexivity.
    - destruct Hc3 as (r1 & -> & ->). destruct r1 as [es|].
      + left. exists es. repeat split. exact Hp.
      + right. split; reflexivity. }
  clear Hc3. destruct Hload as [(es & Hp & -> & ->) | [-> Hnone]].
  { init_eval_in E. subst r. cbn [outcome final events].
    eexists. split; [reflexivity|]. split; [constructor; exact Hp|].
    intros s H. discriminate H. }
  (* the tailer *)
  init_eval_in E.
  destruct (initTailer_cases st3) as (to & rt & Hev4 & Hone & Hc4).
  destruct (initTailer X st3) as [o4 st4 ev4].
  cbn [outcome final events] in *. subst ev4.
  destruct rt as [e|]; destruct Hc4 as [-> Hs4]; init_eval_in E; subst r;
    cbn [outcome final events].
  - eexists. split; [reflexivity|]. split.
    + rewrite app_nil_r. cbn [app]. apply init_tailer_fails. exact Hnone.
    + intros s H. discriminate H.
  - eexists. split; [reflexivity|]. split.
    + rewrite app_nil_r. cbn [app]. apply init_done. exact Hnone.
    + intros s H. injection H as <-. split; [destruct st4; reflexivity|].
      exists eo, lo, to. split.
      * destruct st4 as [m4 w4]. cbn [srv] in *. rewrite Hs4, Hs3, Hs2.
        reflexivity.
      * assert (Heq : Server.oneShot (srv st3) = Server.oneShot (srv st1))
          by (rewrite Hs3, Hs2; destruct (srv st1); reflexivity).
        rewrite <- Heq. exact Hone.
Qed.

(** [New] when the options do not all return [nil]: nothing is built. *)
Lemma New_options_fail (store : Store) (w : Watcher)
    (options : list (Go W (option error))) (w0 : W) :
  let r0 := SetOption options {| srv := new_server store w; world := w0 |} in
  let r := New X store w options w0 in
  outcome r0 <> Ret None ->
  events r = events r0 /\ final r = final r0 /\
  (forall e, outcome r0 = Ret (Some e) -> outcome r = Ret (None, Some e)) /\
  (forall a, outcome r = Ret a -> exists e, outcome r0 = Ret (Some e)).
Proof.
  intros r0 r Ho. subst r.
  remember (New X store w options w0) as r eqn:E.
  unfold New in E. unfold bind at 1 in E. fold r0 in E. clearbody r0.
  destruct r0 as [[[e|]| |msg|code] st1 ev1]; cbn in Ho;
    try contradiction; init_eval_in E; subst r; cbn; rewrite ?app_nil_r;
    (split; [reflexivity|]); (split; [reflexivity|]);
    split; intros; first [discriminate | congruence | eexists; reflexivity].
Qed.

(** X2.  When [New] returns, it returns either an error and no server, or
    a server and no error; the server it returns has an exporter, a
    registry, a loader and a tailer, the loader was made for the server's
    program path and the tailer was given [OneShot] exactly when the server
    is in one-shot mode. *)
Theorem New_server_or_error (store : Store) (w : Watcher)
    (options : list (Go W (option error))) (w0 : W)
    (m : option Server) (err : option error) :
  outcome (New X store w options w0) = Ret (m, err) ->
  (m = None /\ err <> None) \/
  (err = None /\
   exists s tl ld,
     m = Some s /\
     Server.e s <> None /\ Server.reg s <> None /\
     Server.l s = Some ld /\ Server.t s = Some tl /\
     loader_programPath ld = Server.programPath s /\
     (In OneShot (tailer_opts tl) <-> Server.oneShot s = true)).
Proof.
  intros Hr.
  pose proof (New_after_options store w options w0) as Hok.
  pose proof (New_options_fail store w options w0) as Hfail.
  cbv zeta in Hok, Hfail.
  destruct (outcome (SetOption options _)) as [[e|]| |msg|code] eqn:Ho.
  - destruct (Hfail ltac:(discriminate)) as (_ & _ & He & _).
    rewrite (He e eq_refl) in Hr. injection Hr as <- <-.
    left. split; [reflexivity | discriminate].
  - destruct (Hok eq_refl) as (evs & _ & Htr & Hs). rewrite Hr in Htr, Hs.
    inversion Htr; subst; try (left; split; [reflexivity | discriminate]).
    right. split; [reflexivity|].
    destruct (Hs _ eq_refl) as (_ & eo' & lo' & to' & Heq & Hone).
    clear Hs Htr Hr Hok Hfail Ho.
    remember (srv (final (SetOption options _))) as s1 eqn:Hs1. clear Hs1.
    rewrite Heq. clear Heq. destruct s1. cbn in Hone |- *.
    eexists. eexists. eexists. split; [reflexivity|]. cbn.
    split; [discriminate|]. split; [discriminate|].
    split; [reflexivity|]. split; [reflexivity|]. split; [reflexivity|].
    exact Hone.
  - destruct (Hfail ltac:(discriminate)) as (_ & _ & _ & Hn).
    destruct (Hn _ Hr) as [e He]. discriminate He.
  - destruct (Hfail ltac:(discriminate)) as (_ & _ & _ & Hn).
    destruct (Hn _ Hr) as [e He]. discriminate He.
  - destruct (Hfail ltac:(discriminate)) as (_ & _ & _ & Hn).
    destruct (Hn _ Hr) as [e He]. discriminate He.
Qed.

(** X3.  [New] builds the exporter, the loader and the tailer in this
    order, after the options, and stops at the first failure: an option
    that fails leaves [New] with that error and without a single call of a
    constructor; after the options, the constructor calls are a prefix of
    [exporter.New], [vm.NewLoader], [LoadAllPrograms] (only for a non-empty
    program path), [tailer.New], ending at the first one that failed, whose
    error [New] returns. *)
Theorem New_stops_at_first_failure (store : Store) (w : Watcher)
    (options : list (Go W (option error))) (w0 : W) :
  let r0 := SetOption options {| srv := new_server store w; world := w0 |} in
  let r := New X store w options w0 in
  (forall e, outcome r0 = Ret (Some e) ->
     r = mkResult (Ret (None, Some e)) (final r0) (events r0)) /\
  (outcome r0 = Ret None ->
     exists evs, events r = events r0 ++ evs /\ init_trace evs (outcome r)).
Proof.
  intros r0 r. split.
  - intros e He.
    destruct (New_options_fail store w options w0) as (Hev & Hfin & Hout & _).
    { fold r0. rewrite He. discriminate. }
    fold r0 r in Hev, Hfin, Hout. specialize (Hout e He).
    destruct r as [o st1 ev]. cbn in *. congruence.
  - intros Ho.
    destruct (New_after_options store w options w0 Ho) as (evs & Hev & Htr & _).
    exists evs. split; assumption.
Qed.

(** X4.  Besides the dump options and [CompileOnly], [initLoader] passes
    [ErrorsAbort] exactly when both [compileOnly] and [oneShot] are set,
    [SyslogUseCurrentYear] and [OmitMetricSource] exactly when the flag of
    that name is set, and [OverrideLocation loc] exactly when the
    server's location is [loc]; it leaves the server with a loader made of
    the program path and of these options when [vm.NewLoader] succeeded,
    also when the initial load then fails, and with a [nil] loader
    otherwise. *)
Theorem initLoader_mode_options (st : State W) :
  exists opts r0 rest,
    events (initLoader X st)
      = NewLoader (Server.programPath (srv st)) opts r0 :: rest /\
    (In ErrorsAbort opts <->
     Server.compileOnly (srv st) = true /\ Server.oneShot (srv st) = true) /\
    (In SyslogUseCurrentYear opts <->
     Server.syslogUseCurrentYear (srv st) = true) /\
    (In OmitMetricSource opts <-> Server.omitMetricSource (srv st) = true) /\
    (forall loc, In (OverrideLocation loc) opts <->
                 Server.overrideLocation (srv st) = Some loc) /\
    Server.l (srv (final (initLoader X st))) =
      match r0 with
      | Some _ => None
      | None => Some {| loader_programPath := Server.programPath (srv st);
                        loader_opts := opts |}
      end.
Proof.
  destruct (initLoader_full st)
    as (opts & r0 & rest & Hev & (H1 & H2 & H3 & H4) & Hs & _).
  exists opts, r0, rest. rewrite Hs.
  split; [exact Hev|]. split; [exact H1|]. split; [exact H2|].
  split; [exact H3|]. split; [exact H4|].
  destruct (srv st). reflexivity.
Qed.

(** X5.  [initExporter] calls [exporter.New] once, with [OmitProgLabel]
    and [EmitTimestamp] exactly when [omitProgLabel] and
    [emitMetricTimestamp] are set.  On success the server has the exporter
    and a registry of five collectors; on failure [initExporter] returns
    the error, the exporter is [nil] and the registry is the one the
    server had. *)
Theorem initExporter_options (st : State W) :
  exists opts r,
    events (initExporter X st) = [ExporterNew opts r] /\
    (In OmitProgLabel opts <-> Server.omitProgLabel (srv st) = true) /\
    (In EmitTimestamp opts <-> Server.emitMetricTimestamp (srv st) = true) /\
    match r with
    | Some e =>
        outcome (initExporter X st) = Ret (Some e) /\
        Server.e (srv (final (initExporter X st))) = None /\
        Server.reg (srv (final (initExporter X st))) = Server.reg (srv st)
    | None =>
        outcome (initExporter X st) = Ret None /\
        Server.e (srv (final (initExporter X st)))
          = Some {| exporter_opts := opts |} /\
        exists collectors,
          Server.reg (srv (final (initExporter X st))) = Some collectors /\
          length collectors = 5%nat
    end.
Proof.
  destruct (initExporter_cases st) as (opts & r & Hev & H1 & H2 & Hc).
  exists opts, r. split; [exact Hev|]. split; [exact H1|]. split; [exact H2|].
  destruct r as [e|]; destruct Hc as [Ho Hs]; rewrite Hs;
    (split; [exact Ho|]); destruct (srv st); cbn.
  - split; reflexivity.
  - split; [reflexivity|]. eexists. split; reflexivity.
Qed.

(** Options that keep the lifecycle fields keep them together. *)
Lemma SetOption_keeps_lifecycle (options : list (Go W (option error))) :
  Forall keeps_lifecycle options -> keeps_lifecycle (SetOption options).
Proof.
  induction 1 as [|x xs Hx _ IH]; intros st.
  - cbn. repeat split.
  - cbn [SetOption]. unfold bind. specialize (Hx st). cbv zeta in Hx.
    destruct (x st) as [[[e|]| |msg|code] st1 ev1]; cbn in Hx |- *;
      try exact Hx.
    specialize (IH st1). cbv zeta in IH.
    destruct (SetOption xs st1) as [o2 st2 ev2]. cbn in IH |- *.
    intuition congruence.
Qed.

(** [Close] on a server that has a tailer, a loader and an HTTP server:
    the four steps, or the first two and blocked. *)
Lemma Close_complete_server (st : State W) :
  once_done st = false ->
  Server.closeQuit (srv st) = ChOpen ->
  Server.t (srv st) <> None -> Server.l (srv st) <> None ->
  Server.h (srv st) <> None ->
  exists r1,
    (outcome (Close X st) = Blocked /\
     steps (events (Close X st)) = [ChanClose ch_closeQuit; TailerClose r1])
    \/
    (outcome (Close X st) = Ret None /\
     exists r2,
       steps (events (Close X st)) =
         [ChanClose ch_closeQuit; TailerClose r1; RecvVMsDone;
          HTTPShutdown shutdown_ctx r2; CtxCancel]).
Proof.
  destruct st as [m w0]. unfold once_done. destruct m. cbn.
  destruct closeOnce as [d]. cbn. intros -> -> Ht Hl Hh.
  destruct t; [|contradiction]. destruct l; [|contradiction].
  destruct h; [|contradiction]. clear Ht Hl Hh.
  remember (Close X _) as r eqn:E.
  unfold Close, closeOnce_Do, shutdown, shutdown_ctx in *.
  go_run E; subst r; cbn.
  all: eexists; first
    [ left; split; reflexivity
    | right; split; [reflexivity | eexists; reflexivity] ].
Qed.

(** X6.  A server that [New] returns, built with options that leave the
    channels, the once-guard and the HTTP server alone, is ready for
    [Close]: its channels are open and [Close] has not run; and [Close] on
    it, in whatever world, closes [closeQuit], closes the tailer, and then
    either stays blocked waiting for the loader or goes on to the loader's
    signal and the shutdown of the HTTP server and returns [nil].  It never
    closes the [lines] channel itself. *)
Theorem New_ready_for_Close (store : Store) (w : Watcher)
    (options : list (Go W (option error))) (w0 : W) (s : Server) :
  Forall keeps_lifecycle options ->
  outcome (New X store w options w0) = Ret (Some s, None) ->
  well_formed s /\
  Server.webquit s = ChOpen /\
  forall w',
    let closing := Close X {| srv := s; world := w' |} in
    exists r1,
      (outcome closing = Blocked /\
       steps (events closing) = [ChanClose ch_closeQuit; TailerClose r1])
      \/
      (outcome closing = Ret None /\
       exists r2,
         steps (events closing) =
           [ChanClose ch_closeQuit; TailerClose r1; RecvVMsDone;
            HTTPShutdown shutdown_ctx r2; CtxCancel]).
Proof.
  intros Hkeep Hr.
  pose proof (SetOption_keeps_lifecycle Hkeep
                {| srv := new_server store w; world := w0 |}) as Hlife.
  cbv zeta in Hlife. cbn [srv] in Hlife.
  pose proof (New_after_options store w options w0) as Hok.
  pose proof (New_options_fail store w options w0) as Hfail.
  cbv zeta in Hok, Hfail.
  assert (Ho : outcome (SetOption options
                 {| srv := new_server store w; world := w0 |}) = Ret None).
  { destruct (outcome (SetOption options _)) as [[e|]| |msg|code] eqn:Ho;
      try reflexivity;
      destruct (Hfail ltac:(discriminate)) as (_ & _ & He & Hn);
      destruct (Hn _ Hr) as [e' He']; try discriminate He'.
    rewrite (He e eq_refl) in Hr. discriminate Hr. }
  destruct (Hok Ho) as (_ & _ & _ & Hs).
  destruct (Hs s Hr) as (_ & eo & lo & to & Heq & _).
  clear Hok Hfail Hs Hr Ho.
  remember (srv (final (SetOption options _))) as s1 eqn:Hs1. clear Hs1.
  destruct Hlife as (Hq & Hl & Hw & Hd & Hh).
  subst s. destruct s1. cbn in Hq, Hl, Hw, Hd, Hh. subst.
  split; [intros _; split; intros; reflexivity|].
  split; [reflexivity|].
  intros w' closing. subst closing.
  apply Close_complete_server; cbn; try reflexivity; discriminate.
Qed.

End Construction.

(** Evaluation of the sequencing only. *)
Ltac seq_eval_in E :=
  cbv beta iota zeta delta
    [bind get_server ret emit glog glog_Exitf os_Exit call call_ update_server
     outcome final events srv world] in E.

(** Evaluation through a [select]: the lists of ready cases are
    computed. *)
Ltac select_run E :=
  repeat first
    [ progress go_eval_in E
    | progress cbn [app] in E
    | destruct_stuck_in E ].

Section Serving.

Variable W : Type.
Variable X : External W.

(** [Close] touches three fields of the server. *)
Lemma Close_srv (st : State W) :
  exists q ln d,
    srv (final (Close X st)) =
      Server.set_closeOnce d
        (Server.set_lines ln (Server.set_closeQuit q (srv st))).
Proof.
  destruct st as [m w0]. destruct m. destruct closeOnce as [d0].
  remember (Close X _) as r eqn:E.
  unfold Close, closeOnce_Do, shutdown in E.
  go_run E; subst r; cbn; do 3 eexists; reflexivity.
Qed.

(** A shutdown that has returned has closed [closeQuit]. *)
Lemma Close_leaves_closeQuit_closed (st : State W) :
  once_done st = false -> returned (Close X st) = true ->
  Server.closeQuit (srv (final (Close X st))) = ChClosed.
Proof.
  destruct st as [m w0]. unfold once_done, returned. destruct m.
  destruct closeOnce as [d0]. cbn. intros ->.
  remember (Close X _) as r eqn:E.
  unfold Close, closeOnce_Do, shutdown in E.
  go_run E; subst r; cbn; intros H; try discriminate H; reflexivity.
Qed.

(** X7.  [WriteMetrics] takes the read lock of the store and releases it
    before it does anything else.  When the metrics cannot be marshalled
    it returns the error wrapped with [failed to marshal metrics into
    json] and never calls the writer; otherwise it hands the bytes to the
    writer after the lock is released, and ends as the writer ends. *)
Theorem WriteMetrics_releases_lock (w : Writer W) (st : State W) :
  match json_MarshalIndent X (world st) with
  | inr err =>
      WriteMetrics X w st =
        mkResult (Ret (Some (Wrap err "failed to marshal metrics into json")))
                 st [StoreRLock; StoreRUnlock]
  | inl b =>
      WriteMetrics X w st =
        mkResult (outcome (w b st)) (final (w b st))
                 (StoreRLock :: StoreRUnlock :: events (w b st))
  end.
Proof.
  destruct st as [m w0]. cbn [world].
  unfold WriteMetrics, json_Marshal_store, bind, emit, ret. cbn.
  destruct (json_MarshalIndent X w0) as [b|err]; [|reflexivity].
  destruct (w b _) as [o st1 ev]. reflexivity.
Qed.

(** X8.  With both quit channels open and no signal, [WaitForShutdown]
    registers for signals and stays blocked: it logs nothing, does not
    call [Close], and leaves the server and the world as they were. *)
Theorem WaitForShutdown_idle (st : State W) :
  Server.webquit (srv st) = ChOpen ->
  Server.closeQuit (srv st) = ChOpen ->
  os_signal X (world st) = None ->
  WaitForShutdown X st = mkResult Blocked st [SignalNotify].
Proof.
  destruct st as [m w0]. destruct m. cbn. intros -> -> Hs.
  unfold WaitForShutdown, ready_cases, select_ready. go_eval.
  rewrite Hs. reflexivity.
Qed.

(** X9.  A [POST] to the quit endpoint wakes [WaitForShutdown] without a
    signal: on the state the handler leaves, with the [closeQuit] channel
    open and no signal pending, [WaitForShutdown] logs that it received
    the quit from HTTP and goes on with [Close], whose events, final
    state and way of ending are its own. *)
Theorem WaitForShutdown_after_POST (st : State W) (w : ResponseWriter) :
  Server.webquit (srv st) = ChOpen ->
  Server.closeQuit (srv st) = ChOpen ->
  os_signal X (world st) = None ->
  let posted := final (handleQuit w post_request st) in
  let closing := Close X posted in
  events (WaitForShutdown X posted) =
    SignalNotify :: Glog INFO "Received Quit from HTTP, exiting..." []
    :: events closing /\
  final (WaitForShutdown X posted) = final closing /\
  returned (WaitForShutdown X posted) = returned closing /\
  ~ In RecvSignal (events (WaitForShutdown X posted)).
Proof.
  intros Hw Hc Hs posted closing.
  assert (Hp : Server.webquit (srv posted) = ChClosed /\
               Server.closeQuit (srv posted) = ChOpen /\
               world posted = world st).
  { subst posted. destruct st as [m w0]. destruct m. cbn in Hw, Hc. subst.
    split; [reflexivity|]. split; reflexivity. }
  destruct Hp as (Hp & Hpc & Hpw). rewrite <- Hpw in Hs.
  subst closing. clearbody posted. clear Hw Hc Hpw.
  pose proof (@Close_no_output W X posted) as Hq.
  pose proof (@Close_outcome_nil W X posted) as Hn.
  destruct posted as [m1 w1]. destruct m1. cbn in Hp, Hpc, Hs. subst.
  remember (WaitForShutdown X _) as r eqn:E.
  unfold WaitForShutdown, ready_cases, select_ready in E. go_eval_in E.
  rewrite Hs in E. cbn [app length] in E. rewrite Nat.mod_1_r in E.
  cbn [nth] in E. go_eval_in E.
  destruct (Close X _) as [[a| |msg|code] st1 ev] eqn:Ec.
  all: go_eval_in E;
    try (cbn [outcome] in Hn; rewrite (Hn a eq_refl) in E; go_eval_in E);
    subst r;
    cbn [outcome final events returned app] in *; rewrite ?app_nil_r.
  all: split; [reflexivity|]; split; [reflexivity|]; split; [reflexivity|].
  all: intros [H|[H|H]]; try discriminate H.
  all: destruct (Hq _ H) as [_ Hf]; discriminate Hf.
Qed.

(** X10.  After [Close] has performed the shutdown and returned,
    [WaitForShutdown] on the state it leaves, with the [webquit] channel
    open and no signal pending, logs that it received the quit internally
    and returns: its call of [Close] does nothing, so the shutdown is not
    performed a second time. *)
Theorem WaitForShutdown_after_Close (st : State W) :
  once_done st = false ->
  Server.webquit (srv st) = ChOpen ->
  returned (Close X st) = true ->
  os_signal X (world (final (Close X st))) = None ->
  WaitForShutdown X (final (Close X st)) =
    mkResult (Ret tt) (final (Close X st))
      [SignalNotify; Glog INFO "Received quit internally, exiting..." []].
Proof.
  intros Hd Hw Hr Hs.
  pose proof (Close_leaves_closeQuit_closed st Hd Hr) as Hq.
  pose proof (@Close_marks_done W X st Hr) as Hdone.
  destruct (Close_srv st) as (q & ln & d & Hsrv).
  assert (Hw' : Server.webquit (srv (final (Close X st))) = ChOpen).
  { rewrite Hsrv. destruct (srv st). exact Hw. }
  clear Hsrv. remember (final (Close X st)) as st1 eqn:E1. clear E1 Hr Hd Hw.
  destruct st1 as [m1 w1]. pose proof (@Close_done_noop W X _ Hdone) as Hn.
  destruct m1. cbn in Hq, Hw', Hs. subst.
  remember (WaitForShutdown X _) as r eqn:E.
  unfold WaitForShutdown, ready_cases, select_ready in E. go_eval_in E.
  rewrite Hs in E. cbn [app length] in E. rewrite Nat.mod_1_r in E.
  cbn [nth] in E. go_eval_in E. rewrite Hn in E. go_eval_in E.
  exact E.
Qed.

(** X11.  A second [POST] to the quit endpoint panics: whatever the state
    before the first one, after it the [webquit] channel is closed, and
    [handleQuit] closes it again. *)
Theorem handleQuit_second_POST_panics (st : State W) (w w' : ResponseWriter) :
  outcome (handleQuit w' post_request
             (final (handleQuit w post_request st)))
    = Panic "close of closed channel".
Proof.
  destruct st as [m w0]. destruct m.
  unfold handleQuit, post_request. cbn [Method String.eqb Ascii.eqb Bool.eqb negb].
  destruct webquit; go_eval; reflexivity.
Qed.

(** What a [WaitForShutdown] that returns leaves. *)
Lemma WaitForShutdown_returned (st : State W) :
  returned (WaitForShutdown X st) = true ->
  once_done (final (WaitForShutdown X st)) = true.
Proof.
  destruct st as [m w0]. destruct m. unfold returned.
  remember (WaitForShutdown X _) as r eqn:E.
  unfold WaitForShutdown, ready_cases, select_ready in E.
  select_run E; subst r; cbn [outcome final];
    intros H; try discriminate H.
  all: match goal with
       | Hc : Close X ?s = _ |- _ =>
           pose proof (@Close_marks_done W X s) as Hm; rewrite Hc in Hm;
           exact (Hm eq_refl)
       end.
Qed.

Lemma WaitForShutdown_srv (st : State W) :
  exists q ln d,
    srv (final (WaitForShutdown X st)) =
      Server.set_closeOnce d
        (Server.set_lines ln (Server.set_closeQuit q (srv st))).
Proof.
  destruct st as [m w0]. destruct m.
  remember (WaitForShutdown X _) as r eqn:E.
  unfold WaitForShutdown, ready_cases, select_ready in E.
  select_run E; subst r; cbn [outcome final].
  all: try match goal with
       | Hc : Close X ?s = _ |- _ =>
           destruct (Close_srv s) as (q & ln & d & Hs); rewrite Hc in Hs;
           cbn [final srv] in Hs; exists q, ln, d; exact Hs
       end.
  all: cbn; destruct closeOnce; do 3 eexists; reflexivity.
Qed.

(** X12.  A [Serve] that returns, on a server with a bind address, has
    installed the handler with its twelve patterns, started the metric
    push, started the goroutine that serves on the listener, and then been
    through [WaitForShutdown] and received from [errc], in this order of
    its own steps: [Close] has run.  What it returns is what the serving
    goroutine sent, and that is never [http.ErrServerClosed], which the
    goroutine turns into [nil]. *)
Theorem Serve_returns_after_Close (st : State W) (r : option error) :
  Server.bindAddress (srv st) <> "" ->
  outcome (Serve X st) = Ret r ->
  let waiting :=
    WaitForShutdown X
      {| srv := Server.set_h (Some {| Handler := Some mux_patterns |}) (srv st);
         world := exporter_StartMetricPush X (world st) |} in
  exists addr,
    Server.listener (srv st) = Some addr /\
    events (Serve X st) =
      StartMetricPush :: GoHTTPServe (Some addr)
      :: events waiting ++ [RecvErrc r] /\
    once_done (final (Serve X st)) = true /\
    Server.h (srv (final (Serve X st)))
      = Some {| Handler := Some mux_patterns |} /\
    r <> Some http_ErrServerClosed.
Proof.
  intros Hb Hr waiting.
  pose proof (WaitForShutdown_returned
    {| srv := Server.set_h (Some {| Handler := Some mux_patterns |}) (srv st);
       world := exporter_StartMetricPush X (world st) |}) as Hdone.
  destruct (WaitForShutdown_srv
    {| srv := Server.set_h (Some {| Handler := Some mux_patterns |}) (srv st);
       world := exporter_StartMetricPush X (world st) |})
    as (q & ln & d & Hsrv).
  fold waiting in Hdone, Hsrv. unfold returned in Hdone.
  assert (Ew : WaitForShutdown X
    {| srv := Server.set_h (Some {| Handler := Some mux_patterns |}) (srv st);
       world := exporter_StartMetricPush X (world st) |} = waiting)
    by reflexivity.
  clearbody waiting. destruct st as [m w0]. destruct m.
  cbn [srv world Server.set_h Server.bindAddress Server.listener]
    in Ew, Hsrv, Hb, Hr |- *.
  remember (Serve X _) as res eqn:E.
  unfold Serve, e_StartMetricPush in E. go_eval_in E.
  destruct (String.eqb bindAddress "") eqn:Hbe;
    [apply String.eqb_eq in Hbe; contradiction|].
  destruct h as [h0|]; go_eval_in E; [|subst res; discriminate Hr].
  destruct e as [e0|]; go_eval_in E; [|subst res; discriminate Hr].
  destruct listener as [addr|]; go_eval_in E; [|subst res; discriminate Hr].
  go_eval_in Ew. rewrite Ew in E.
  destruct waiting as [[[]| |msg|code] [m1 w1] ev1];
    go_eval_in E; try (subst res; discriminate Hr).
  destruct (http_Serve X w1) as [w2 err] eqn:Hserve. go_eval_in E.
  cbn [outcome final events srv] in Hdone, Hsrv.
  subst res. cbn [outcome final events srv] in Hr |- *.
  injection Hr as <-.
  exists addr. split; [reflexivity|]. split; [reflexivity|].
  split; [exact (Hdone eq_refl)|]. split; [rewrite Hsrv; reflexivity|].
  destruct (String.eqb_spec err http_ErrServerClosed) as [Heq|Hne];
    [discriminate|]. intros H. injection H as H. contradiction.
Qed.

(** X13.  In continuous mode [Run] is [StartTailing], then the start of
    the garbage collection loop of the store, then that of the tailer,
    each with its own interval, then [Serve] on the server as it was; it
    ends as [Serve] ends and returns what [Serve] returns. *)
Theorem Run_continuous (st : State W) :
  Server.compileOnly (srv st) = false ->
  Server.oneShot (srv st) = false ->
  Server.t (srv st) <> None ->
  let tailing := StartTailing X st in
  let d1 := Server.expiredMetricGcTickInterval (srv st) in
  let d2 := Server.staleLogGcTickInterval (srv st) in
  let serving :=
    Serve X {| srv := srv st;
               world := tailer_StartGcLoop X d2
                          (store_StartGcLoop X d1 (world (final tailing))) |} in
  events (Run X st) =
    events tailing
    ++ StoreStartGcLoop d1 :: TailerStartGcLoop d2 :: events serving /\
  outcome (Run X st) = outcome serving /\
  final (Run X st) = final serving.
Proof.
  intros Hc Ho Ht tailing d1 d2 serving.
  destruct (StartTailing_cases X st) as (Hsrv & _ & Hret & _).
  fold tailing in Hsrv, Hret. destruct (Hret Ht) as [Hout _]. clear Hret.
  assert (Et : StartTailing X st = tailing) by reflexivity.
  subst serving d1 d2. clearbody tailing.
  destruct tailing as [o1 [m1 w1] ev1]. cbn [outcome final srv] in Hsrv, Hout.
  subst o1 m1. destruct st as [m w0]. destruct m.
  cbn [srv Server.compileOnly Server.oneShot Server.t] in Hc, Ho, Ht.
  subst. destruct t as [t0|]; [|contradiction].
  remember (Run X _) as res eqn:E.
  unfold Run, t_StartGcLoop in E. go_eval_in E. rewrite Et in E.
  go_eval_in E. go_eval.
  match type of E with
  | context [Serve X ?s] => destruct (Serve X s) as [[[e1|]| |msg|code] st2 ev2]
  end.
  all: go_eval_in E; subst res; cbn [outcome final events];
    rewrite ?app_nil_r, <- ?app_assoc; repeat split.
Qed.


(** X15.  What a one-shot [Run] returns is the error of [WriteMetrics],
    never one of the tailing or of [Close]: either the metrics could not
    be marshalled, [Run] returns that error wrapped and has written
    nothing but the line [Metrics store:] to the standard output; or the
    metrics were written to the standard output and [Run] returns what
    that write returned. *)
Theorem Run_oneShot_result (st : State W) (r : option error) :
  Server.oneShot (srv st) = true ->
  Server.compileOnly (srv st) = false ->
  outcome (Run X st) = Ret r ->
  In (Printf "Metrics store:") (events (Run X st)) /\
  ((exists err,
      r = Some (Wrap err "failed to marshal metrics into json") /\
      forall b wr, ~ In (StdoutWrite b wr) (events (Run X st)))
   \/
   (exists b, In (StdoutWrite b r) (events (Run X st)))).
Proof.
  intros Hone Hcomp Hr.
  destruct (StartTailing_cases X st) as (Hsrv & Hout & _ & _ & Hsil).
  assert (Et : StartTailing X st = StartTailing X st) by reflexivity.
  remember (StartTailing X st) as tailing eqn:Etl in Hsrv, Hout, Hsil, Et at 2.
  clear Etl. destruct tailing as [o1 [m1 w1] ev1].
  cbn [outcome final events srv] in Hsrv, Hout, Hsil. subst m1.
  pose proof (@Close_no_output W X {| srv := srv st; world := w1 |}) as Hquiet.
  pose proof (@Close_outcome_nil W X {| srv := srv st; world := w1 |}) as Hnil.
  destruct st as [m w0]. cbn [srv] in *.
  remember (Run X _) as res eqn:E.
  unfold Run in E. unfold bind at 1 in E. cbn [get_server srv] in E.
  rewrite Hcomp in E. unfold bind at 1 in E. rewrite Et in E.
  destruct Hout as [-> | [_ ->]]; [|subst res; discriminate Hr].
  seq_eval_in E. rewrite Hone in E. seq_eval_in E.
  destruct (Close X _) as [[a2| |msg|code] [m2 w2] ev2];
    try (subst res; discriminate Hr).
  cbn [outcome] in Hnil. rewrite (Hnil a2 eq_refl) in E.
  unfold WriteMetrics, os_Stdout, json_Marshal_store in E. seq_eval_in E.
  cbn [events] in Hquiet.
  destruct (json_MarshalIndent X w2) as [b|err].
  - destruct (stdout_Write X b w2) as [w3 wr].
    destruct wr; seq_eval_in E; subst res;
      cbn [outcome events] in Hr |- *; injection Hr as <-.
    all: split; [rewrite !in_app_iff; cbn; auto 20|].
    all: right; exists b; rewrite !in_app_iff; cbn; auto 20.
  - subst res. cbn [outcome events] in Hr |- *. injection Hr as <-.
    split; [rewrite !in_app_iff; cbn; auto 20|].
    left. exists err. split; [reflexivity|].
    intros b wr H. rewrite !in_app_iff in H. cbn [In] in H.
    assert (H1 : ~ In (StdoutWrite b wr) ev1)
      by (intros H'; apply Hsil in H'; discriminate H').
    assert (H2 : ~ In (StdoutWrite b wr) ev2)
      by (intros H'; apply Hquiet in H'; destruct H' as [H' _];
          discriminate H').
    intuition discriminate.
Qed.

End Serving.

Section StatusPageProperties.

Variable W : Type.
Variable P : Pages W.

Lemma append_assoc (a b c : string) :
  ((a ++ b) ++ c)%string = (a ++ b ++ c)%string.
Proof. induction a as [|x a IH]; cbn; [reflexivity | rewrite IH; reflexivity]. Qed.

(** Once the status is sent, writing leaves it and appends to the body. *)
Lemma written_sent (out : string) (w : ResponseWriter) (code : Z) :
  rw_status w = Some code ->
  rw_status (written out w) = Some code /\
  rw_body (written out w) = (rw_body w ++ out)%string.
Proof.
  intros Hs. destruct out as [|c out]; cbn [written].
  - split; [exact Hs | symmetry; apply append_nil_r].
  - destruct w as [hd s b]. cbn [rw_status rw_body] in *. subst s.
    split; reflexivity.
Qed.

Lemma http_Error_sent (msg : string) (code' : Z) (w : ResponseWriter)
    (code : Z) :
  rw_status w = Some code ->
  rw_status (http_Error msg code' w) = Some code /\
  rw_body (http_Error msg code' w) = (rw_body w ++ msg ++ nl)%string.
Proof.
  destruct w as [hd s b]. cbn [rw_status rw_body]. intros ->.
  split; reflexivity.
Qed.

(** X16.  When the template has parsed, on a server with a loader and a
    tailer, [ServeHTTP] answers a response not yet begun with the status
    200 whatever happens afterwards, and whatever the request is: when the
    execution of the template fails, the status has been sent, and the
    message of the error is appended to what the template had written;
    the status pages of the loader and of the tailer are appended after
    it, in that order, and their errors are only logged.  The server is
    left as it was. *)
Theorem ServeHTTP_status_OK (w : ResponseWriter) (r : Request) (st : State W) :
  template_Parse P statusTemplate = None ->
  Server.l (srv st) <> None ->
  Server.t (srv st) <> None ->
  rw_status w = None ->
  let page :=
    template_Execute P statusTemplate (Server.bindAddress (srv st))
      (BuildInfo_String (runtime_Version P) (runtime_GOARCH P)
         (runtime_GOOS P) (Server.buildInfo (srv st))) in
  let loader := loader_WriteStatusHTML P (world st) in
  let tailer := tailer_WriteStatusHTML P (fst loader) in
  exists w',
    outcome (ServeHTTP P w r st) = Ret w' /\
    rw_status w' = Some StatusOK /\
    rw_body w' =
      (rw_body w ++ fst page
       ++ match snd page with Some e => e ++ nl | None => "" end
       ++ fst (snd loader) ++ fst (snd tailer))%string /\
    srv (final (ServeHTTP P w r st)) = srv st /\
    events (ServeHTTP P w r st) =
      match snd (snd loader) with
      | Some e => [Glog WARNING "Error while writing loader status: %s" [e]]
      | None => []
      end
      ++ match snd (snd tailer) with
         | Some e => [Glog WARNING "Error while writing tailer status: %s" [e]]
         | None => []
         end.
Proof.
  intros Hparse Hl Ht Hs page loader tailer.
  destruct st as [m w0]. destruct m. cbn [srv world Server.l Server.t
    Server.bindAddress Server.buildInfo] in *.
  destruct l as [l0|]; [|contradiction]. destruct t as [t0|]; [|contradiction].
  clear Hl Ht.
  remember (ServeHTTP P w r _) as res eqn:E.
  unfold ServeHTTP, l_WriteStatusHTML, t_WriteStatusHTML, call_quiet in E.
  rewrite Hparse in E. go_eval_in E. fold page in E.
  destruct page as [out err]. go_eval_in E. fold loader in E.
  destruct loader as [wl [out1 el]]. cbn [fst snd] in *.
  (* the writer, step by step *)
  assert (H0 : rw_status (WriteHeader StatusOK
                 (Header_Add (CanonicalMIMEHeaderKey "Content-type")
                    "text/html" w)) = Some StatusOK)
    by (unfold WriteHeader, Header_Add; cbn; rewrite Hs; reflexivity).
  assert (B0 : rw_body (WriteHeader StatusOK
                 (Header_Add (CanonicalMIMEHeaderKey "Content-type")
                    "text/html" w)) = rw_body w)
    by (unfold WriteHeader, Header_Add; cbn; rewrite Hs; reflexivity).
  destruct (written_sent out _ H0) as [H1 B1]. rewrite B0 in B1.
  assert (Hx : exists wx,
             wx = match err with
                  | Some e0 =>
                      http_Error e0 StatusInternalServerError
                        (written out (WriteHeader StatusOK
                           (Header_Add (CanonicalMIMEHeaderKey "Content-type")
                              "text/html" w)))
                  | None =>
                      written out (WriteHeader StatusOK
                        (Header_Add (CanonicalMIMEHeaderKey "Content-type")
                           "text/html" w))
                  end /\
             rw_status wx = Some StatusOK /\
             rw_body wx =
               (rw_body w ++ out
                ++ match err with Some e0 => e0 ++ nl | None => "" end)%string).
  { eexists. split; [reflexivity|]. destruct err as [ex|].
    - destruct (http_Error_sent ex StatusInternalServerError _ H1) as [H2 B2].
      split; [exact H2|]. rewrite B2, B1, append_assoc. reflexivity.
    - split; [exact H1|]. rewrite B1, append_nil_r. reflexivity. }
  destruct Hx as (wx & Ex & H2 & B2).
  destruct (written_sent out1 _ H2) as [H3 B3]. rewrite B2 in B3.
  pose proof (fun o => proj1 (written_sent o _ H3)) as H4.
  assert (B4 : forall o,
             rw_body (written o (written out1 wx)) =
               (rw_body w ++ out
                ++ match err with Some e0 => e0 ++ nl | None => "" end
                ++ out1 ++ o)%string).
  { intros o. destruct (written_sent o _ H3) as [_ B].
    rewrite B, B3, !append_assoc. reflexivity. }
  subst wx.
  destruct el as [el|]; go_eval_in E; fold tailer in E;
    destruct tailer as [wt [out2' et]]; cbn [fst snd] in *;
    destruct et as [et|]; go_eval_in E; subst res;
    cbn [outcome final events srv app].
  all: eexists; (split; [reflexivity|]); (split; [exact (H4 out2')|]);
    (split; [exact (B4 out2')|]); split; reflexivity.
Qed.

End StatusPageProperties.

(** * The further properties on examples *)

(** An option that fails between two that set the program path: the second
    path is never set. *)
Lemma SetOption_first_error_witness :
  outcome (SetOption [ProgramPath "/etc/mtail"] bare_state) = Ret None /\
  outcome (failing_option "unknown flag"
             (final (SetOption [ProgramPath "/etc/mtail"] bare_state)))
    = Ret (Some "unknown flag") /\
  SetOption ([ProgramPath "/etc/mtail"]
             ++ failing_option "unknown flag" :: [ProgramPath "/tmp"])
            bare_state =
    mkResult (Ret (Some "unknown flag"))
      {| srv := Server.set_programPath "/etc/mtail" (srv bare_state);
         world := tt |} [].
Proof.
  split; [reflexivity|]. split; [reflexivity|].
  apply (@SetOption_first_error unit [ProgramPath "/etc/mtail"]
           [ProgramPath "/tmp"] (failing_option "unknown flag")
           "unknown flag" bare_state); reflexivity.
Defined.

(** [New] without options in a calm world returns a server. *)
Lemma New_server_or_error_witness :
  outcome (New (scripted calm) MetricsStore LogWatcher [] tt)
    = Ret (Some (srv unbound_state), None) /\
  ((Some (srv unbound_state) = None /\ @None error <> None) \/
   (@None error = None /\
    exists s tl ld,
      Some (srv unbound_state) = Some s /\
      Server.e s <> None /\ Server.reg s <> None /\
      Server.l s = Some ld /\ Server.t s = Some tl /\
      loader_programPath ld = Server.programPath s /\
      (In OneShot (tailer_opts tl) <-> Server.oneShot s = true))).
Proof.
  split; [reflexivity|].
  apply (@New_server_or_error unit (scripted calm) MetricsStore LogWatcher
           [] tt (Some (srv unbound_state)) None).
  reflexivity.
Defined.

(** In the stormy world the initial load of the programs fails: [New]
    stops there, without tailer. *)
Lemma New_stops_at_first_failure_witness :
  outcome (SetOption [ProgramPath "/etc/mtail"]
             {| srv := new_server MetricsStore LogWatcher; world := tt |})
    = Ret None /\
  exists evs,
    events (New (scripted stormy) MetricsStore LogWatcher
              [ProgramPath "/etc/mtail"] tt)
      = events (SetOption [ProgramPath "/etc/mtail"]
                  {| srv := new_server MetricsStore LogWatcher; world := tt |})
        ++ evs /\
    init_trace evs
      (outcome (New (scripted stormy) MetricsStore LogWatcher
                  [ProgramPath "/etc/mtail"] tt)).
Proof.
  split; [reflexivity|].
  apply (proj2 (@New_stops_at_first_failure unit (scripted stormy)
                  MetricsStore LogWatcher [ProgramPath "/etc/mtail"] tt)).
  reflexivity.
Defined.

(** The option that sets the program path keeps the lifecycle fields. *)
Lemma ProgramPath_keeps_lifecycle (path : string) :
  keeps_lifecycle (W:=unit) (ProgramPath path).
Proof. intros [m w0]. destruct m. cbn. repeat split. Defined.

(** The server that [New] builds for [/etc/mtail] in a calm world. *)
Lemma New_ready_for_Close_witness :
  Forall (keeps_lifecycle (W:=unit)) [ProgramPath "/etc/mtail"] /\
  outcome (New (scripted calm) MetricsStore LogWatcher
             [ProgramPath "/etc/mtail"] tt)
    = Ret (Some (srv (final (New (scripted calm) MetricsStore LogWatcher
                               [ProgramPath "/etc/mtail"] tt))), None) /\
  well_formed (srv (final (New (scripted calm) MetricsStore LogWatcher
                             [ProgramPath "/etc/mtail"] tt))) /\
  Server.webquit (srv (final (New (scripted calm) MetricsStore LogWatcher
                                [ProgramPath "/etc/mtail"] tt))) = ChOpen.
Proof.
  assert (Hk : Forall (keeps_lifecycle (W:=unit)) [ProgramPath "/etc/mtail"])
    by (constructor; [apply ProgramPath_keeps_lifecycle | constructor]).
  assert (Hn : outcome (New (scripted calm) MetricsStore LogWatcher
                          [ProgramPath "/etc/mtail"] tt)
               = Ret (Some (srv (final (New (scripted calm) MetricsStore
                                          LogWatcher
                                          [ProgramPath "/etc/mtail"] tt))),
                      None))
    by (vm_compute; reflexivity).
  split; [exact Hk|]. split; [exact Hn|].
  destruct (@New_ready_for_Close unit (scripted calm) MetricsStore LogWatcher
              [ProgramPath "/etc/mtail"] tt _ Hk Hn) as (Hwf & Hq & _).
  split; [exact Hwf | exact Hq].
Defined.

(** A serving server that nobody asks to quit. *)
Lemma WaitForShutdown_idle_witness :
  Server.webquit (srv serving_state) = ChOpen /\
  Server.closeQuit (srv serving_state) = ChOpen /\
  os_signal (without_signal (scripted calm)) (world serving_state) = None /\
  WaitForShutdown (without_signal (scripted calm)) serving_state
    = mkResult Blocked serving_state [SignalNotify].
Proof.
  split; [reflexivity|]. split; [reflexivity|]. split; [reflexivity|].
  apply (@WaitForShutdown_idle unit (without_signal (scripted calm))
           serving_state); reflexivity.
Defined.

(** A [POST] to the quit endpoint of the serving server, then the wait. *)
Lemma WaitForShutdown_after_POST_witness :
  Server.webquit (srv serving_state) = ChOpen /\
  Server.closeQuit (srv serving_state) = ChOpen /\
  os_signal (without_signal (scripted calm)) (world serving_state) = None /\
  ~ In RecvSignal
      (events (WaitForShutdown (without_signal (scripted calm))
                 (final (handleQuit fresh_writer post_request serving_state)))).
Proof.
  split; [reflexivity|]. split; [reflexivity|]. split; [reflexivity|].
  apply (@WaitForShutdown_after_POST unit (without_signal (scripted calm))
           serving_state fresh_writer); reflexivity.
Defined.

(** [Close] on the serving server, then the wait. *)
Lemma WaitForShutdown_after_Close_witness :
  once_done serving_state = false /\
  Server.webquit (srv serving_state) = ChOpen /\
  returned (Close (without_signal (scripted calm)) serving_state) = true /\
  os_signal (without_signal (scripted calm))
    (world (final (Close (without_signal (scripted calm)) serving_state)))
    = None /\
  WaitForShutdown (without_signal (scripted calm))
    (final (Close (without_signal (scripted calm)) serving_state)) =
    mkResult (Ret tt)
      (final (Close (without_signal (scripted calm)) serving_state))
      [SignalNotify; Glog INFO "Received quit internally, exiting..." []].
Proof.
  split; [reflexivity|]. split; [reflexivity|]. split; [reflexivity|].
  split; [reflexivity|].
  apply (@WaitForShutdown_after_Close unit (without_signal (scripted calm))
           serving_state); reflexivity.
Defined.

(** The serving server is sent a signal at once. *)
Lemma Serve_returns_after_Close_witness :
  Server.bindAddress (srv serving_state) <> "" /\
  outcome (Serve (scripted calm) serving_state) = Ret None /\
  once_done (final (Serve (scripted calm) serving_state)) = true.
Proof.
  assert (Hb : Server.bindAddress (srv serving_state) <> "") by discriminate.
  split; [exact Hb|]. split; [reflexivity|].
  destruct (@Serve_returns_after_Close unit (scripted calm) serving_state
              None Hb eq_refl) as (addr & _ & _ & Hd & _).
  exact Hd.
Defined.

(** [Run] on the serving server. *)
Lemma Run_continuous_witness :
  Server.compileOnly (srv serving_state) = false /\
  Server.oneShot (srv serving_state) = false /\
  Server.t (srv serving_state) <> None /\
  events (Run (scripted calm) serving_state) =
    events (StartTailing (scripted calm) serving_state)
    ++ StoreStartGcLoop (3600 * Second) :: TailerStartGcLoop (3600 * Second)
       :: events (Serve (scripted calm) serving_state).
Proof.
  assert (Ht : Server.t (srv serving_state) <> None) by discriminate.
  split; [reflexivity|]. split; [reflexivity|]. split; [exact Ht|].
  exact (proj1 (@Run_continuous unit (scripted calm) serving_state
                  eq_refl eq_refl Ht)).
Defined.


(** A one-shot run whose metrics cannot be marshalled. *)
Lemma Run_oneShot_result_witness :
  Server.oneShot (srv oneshot_state) = true /\
  Server.compileOnly (srv oneshot_state) = false /\
  outcome (Run (scripted unmarshallable) oneshot_state)
    = Ret (Some (Wrap "json: unsupported value: NaN"
                      "failed to marshal metrics into json")) /\
  In (Printf "Metrics store:")
     (events (Run (scripted unmarshallable) oneshot_state)).
Proof.
  split; [reflexivity|]. split; [reflexivity|]. split; [reflexivity|].
  exact (proj1 (@Run_oneShot_result unit (scripted unmarshallable)
                  oneshot_state _ eq_refl eq_refl eq_refl)).
Defined.

(** The status page when the template breaks half way and the loader has
    no page. *)
Lemma ServeHTTP_status_OK_witness :
  template_Parse torn_pages statusTemplate = None /\
  Server.l (srv oneshot_state) <> None /\
  Server.t (srv oneshot_state) <> None /\
  rw_status fresh_writer = None /\
  exists w',
    outcome (ServeHTTP torn_pages fresh_writer get_request oneshot_state)
      = Ret w' /\
    rw_status w' = Some StatusOK /\
    rw_body w' =
      String.append "<html>"
        (String.append "broken pipe" (String.append nl "<h2>Log files</h2>")).
Proof.
  assert (Hl : Server.l (srv oneshot_state) <> None) by discriminate.
  assert (Ht : Server.t (srv oneshot_state) <> None) by discriminate.
  split; [reflexivity|]. split; [exact Hl|]. split; [exact Ht|].
  split; [reflexivity|].
  destruct (@ServeHTTP_status_OK unit torn_pages fresh_writer get_request
              oneshot_state eq_refl Hl Ht eq_refl)
    as (w' & Ho & Hs & Hb & _).
  exists w'. split; [exact Ho|]. split; [exact Hs | exact Hb].
Defined.
